(** * z3: a thin client over an S3 object store

    Shallow embedding of [z3/s3_client.py].  The module-level [client] is a
    boto3 S3 client; here it is an arbitrary stateful backend (class
    [S3Client]) together with a record of every call made on it.  Python
    exceptions are values of [exn]; a function of the module is a state and
    exception computation over the [world] (backend, call record, local
    file system, logger). *)

From Stdlib Require Import Strings.Ascii Strings.String Strings.Byte.
From stdpp Require Import base option list strings gmap.

Set Default Proof Using "Type".

(** ** Python strings *)

Module Py.

(** [s.startswith(p)] *)
Definition startswith (s p : string) : bool := String.prefix p s.

(** [s.endswith(p)]: [s] is [p], or [s] without its first character ends
    with [p]. *)
Fixpoint endswith (s p : string) : bool :=
  String.eqb s p
  || match s with
     | "" => false
     | String _ s' => endswith s' p
     end.

(** [sep.join(l)] *)
Fixpoint join (sep : string) (l : list string) : string :=
  match l with
  | [] => ""
  | [x] => x
  | x :: l' => x +:+ sep +:+ join sep l'
  end.

(** [s.split("/")]: the pieces between the slashes, never an empty list. *)
Fixpoint split_slash (s : string) : list string :=
  match s with
  | "" => [""]
  | String c s' =>
      if Ascii.eqb c "/" then "" :: split_slash s'
      else match split_slash s' with
           | x :: xs => String c x :: xs
           | [] => [String c ""]
           end
  end.

End Py.

(** ** [pathlib]

    [Path] is [pathlib.PurePosixPath] as far as the module uses it: a root
    ([""], ["/"] or ["//"]) and the names after it.  Parsing drops empty names
    and ["."]; [".."] is kept. *)

Module pathlib.
Import Py.

Record Path := mkPath { root : string; tail : list string }.

Definition parse_root (s : string) : string :=
  if startswith s "//" && negb (startswith s "///") then "//"
  else if startswith s "/" then "/"
  else "".

(** [Path(s)] *)
Definition of_str (s : string) : Path :=
  {| root := parse_root s;
     tail := filter (λ x, x ≠ "" ∧ x ≠ ".") (split_slash s) |}.

(** [str(p)], which is also [os.fspath(p)] *)
Definition str (p : Path) : string :=
  match root p, tail p with
  | "", [] => "."
  | r, t => r +:+ join "/" t
  end.

(** [p / q] *)
Definition truediv (p q : Path) : Path :=
  if decide (root q = "") then mkPath (root p) (tail p ++ tail q) else q.

(** [tail q] is a leading run of [tail p]: what is left of [tail p]. *)
Fixpoint strip_names (q p : list string) : option (list string) :=
  match q, p with
  | [], _ => Some p
  | x :: q', y :: p' => if decide (x = y) then strip_names q' p' else None
  | _ :: _, [] => None
  end.

(** [p.relative_to(q)]: [None] stands for the [ValueError] it raises. *)
Definition relative_to (p q : Path) : option Path :=
  if decide (root p = root q)
  then mkPath "" <$> strip_names (tail q) (tail p)
  else None.

Definition not_in_subpath (p q : Path) : string :=
  "'" +:+ str p +:+ "' is not in the subpath of '" +:+ str q +:+ "'".

End pathlib.
Export pathlib(Path, mkPath).

(** ** Exceptions *)

Inductive errno := ENOENT | EEXIST | ENOTDIR | EISDIR | ENXIO.

Inductive exn :=
  | ValueError (msg : string)
  | OSError (code : errno) (filename : string)
  | ClientError (code : string).

Inductive outcome (A : Type) :=
  | Return (a : A)
  | Raise (e : exn).
Arguments Return {A} a.
Arguments Raise {A} e.

(** ** The backend *)

Definition bytes := list byte.

(** One element of ["Contents"] in a [list_objects_v2] response. *)
Record s3_object := { Key : string }.

(** One response of [list_objects_v2]; ["Contents"] is absent from the
    response of an empty listing. *)
Record page := { Contents : option (list s3_object) }.

(** The methods of the boto3 client that the module calls.  [B] is the state
    of the store behind it.  [paginate] gives the pages that
    [get_paginator("list_objects_v2").paginate(Bucket, Prefix)] goes through,
    in order, a failing request being [inl]; [get_object] gives the chunks of
    [response["Body"].iter_chunks()], a failing read being [inl]. *)
Class S3Client (B : Type) := {
  paginate : B → string → string → list (exn + page);
  s3_copy_object : B → string → string → string → string → option exn * B;
  s3_delete_object : B → string → string → option exn * B;
  s3_get_object : B → string → string → exn + list (exn + bytes);
  s3_put_object : B → string → string → bytes → option exn * B;
}.

(** What a recording stub in place of [client] would see. *)
Inductive call :=
  | GetPaginator (operation : string)
  | ListObjectsV2 (Bucket Prefix : string)
  | CopyObject (Bucket Key SrcBucket SrcKey : string)
  | DeleteObject (Bucket Key : string)
  | GetObject (Bucket Key : string)
  | PutObject (Bucket Key : string) (Body : bytes)
  | Close.

(** ** The local file system *)

(** An entry is a directory, a regular file or something else (a socket, a
    FIFO).  Entries are addressed by their absolute list of names; the root
    [[]] is a directory.  There are no symbolic links and no permissions. *)
Inductive node :=
  | Dir
  | File (data : bytes)
  | Special.

Abbreviation filesystem := (gmap (list string) node).

(** ** The order of a directory

    [os.scandir] lists the entries of a directory in an order of the host's
    ([listing d names] is the order in which the names of the directory [d]
    come), and [Path.rglob] goes into the sub-directories of a directory in
    an order that depends on the version of [pathlib]: the listing order or
    its reverse ([visiting d names]).  Both are left open; they rearrange
    the names and nothing else. *)
Class Host := {
  listing : list string → list string → list string;
  visiting : list string → list string → list string;
  listing_perm d names : listing d names ≡ₚ names;
  visiting_perm d names : visiting d names ≡ₚ names;
}.

(** ** [os] and the built-in [open]

    The system calls behind [os.makedirs], [open], [Path.is_file] and
    [Path.rglob], on path strings as the kernel reads them: split at the
    slashes, empty names dropped, ["."] staying in place and [".."] going to
    the parent. *)

Module os.
Import Py.

Definition components (s : string) : list string :=
  filter (λ x, x ≠ "") (split_slash s).

(** Where the resolution of [s] starts. *)
Definition origin (cwd : list string) (s : string) : list string :=
  if startswith s "/" then [] else cwd.

Definition node_at (fs : filesystem) (p : list string) : option node :=
  match p with
  | [] => Some Dir
  | _ => fs !! p
  end.

Definition step (cur : list string) (name : string) : list string :=
  if decide (name = ".") then cur
  else if decide (name = "..") then removelast cur
  else cur ++ [name].

(** Follows [names] from [cur]; every entry stepped from must be a
    directory, the entry reached need not exist. *)
Fixpoint walk (fs : filesystem) (cur : list string) (names : list string)
    : errno + list string :=
  match names with
  | [] => inr cur
  | name :: names' =>
      match node_at fs cur with
      | Some Dir => walk fs (step cur name) names'
      | Some _ => inl ENOTDIR
      | None => inl ENOENT
      end
  end.

(** [os.stat(s)], reduced to the kind of entry found. *)
Definition stat (fs : filesystem) (cwd : list string) (s : string)
    : errno + node :=
  if decide (s = "") then inl ENOENT
  else match walk fs (origin cwd s) (components s) with
       | inl e => inl e
       | inr p =>
           match node_at fs p with
           | None => inl ENOENT
           | Some Dir => inr Dir
           | Some n => if endswith s "/" then inl ENOTDIR else inr n
           end
       end.

(** [os.path.dirname(s)]:
    [i = s.rfind("/") + 1; head = s[:i]], then the trailing slashes of
    [head] are stripped unless [head] is made of slashes only. *)
Fixpoint has_slash (s : string) : bool :=
  match s with
  | "" => false
  | String c s' => Ascii.eqb c "/" || has_slash s'
  end.

Fixpoint upto_last_slash (s : string) : string :=
  match s with
  | "" => ""
  | String c s' =>
      if has_slash s' then String c (upto_last_slash s')
      else if Ascii.eqb c "/" then "/" else ""
  end.

Fixpoint all_slashes (s : string) : bool :=
  match s with
  | "" => true
  | String c s' => Ascii.eqb c "/" && all_slashes s'
  end.

Fixpoint rstrip_slash (s : string) : string :=
  match s with
  | "" => ""
  | String c s' => if all_slashes s then "" else String c (rstrip_slash s')
  end.

Definition dirname (s : string) : string :=
  let head := upto_last_slash s in
  if all_slashes head then head else rstrip_slash head.

(** [os.makedirs(s, exist_ok=True)]: the missing directories along [s] are
    created one after the other; an entry on the way that is not a
    directory stops it, and what was created before stays.  The empty
    path is refused by [mkdir] with [ENOENT]. *)
Fixpoint makedirs_from (fs : filesystem) (cur : list string)
    (names : list string) : option errno * filesystem :=
  match names with
  | [] => (None, fs)
  | name :: names' =>
      match node_at fs cur with
      | Some Dir =>
          let next := step cur name in
          match node_at fs next with
          | None => makedirs_from (<[next := Dir]> fs) next names'
          | Some Dir => makedirs_from fs next names'
          | Some _ =>
              (Some (match names' with [] => EEXIST | _ => ENOTDIR end), fs)
          end
      | Some _ => (Some ENOTDIR, fs)
      | None => (Some ENOENT, fs)
      end
  end.

Definition makedirs (fs : filesystem) (cwd : list string) (s : string)
    : option errno * filesystem :=
  if decide (s = "") then (Some ENOENT, fs)
  else makedirs_from fs (origin cwd s) (components s).

(** The entry that [open(s, ...)] names: the parent directory is resolved
    and the last name looked up in it. *)
Definition locate (fs : filesystem) (cwd : list string) (s : string)
    : errno + list string :=
  if decide (s = "") then inl ENOENT
  else match reverse (components s) with
       | [] => inl EISDIR
       | name :: before =>
           match walk fs (origin cwd s) (reverse before) with
           | inl e => inl e
           | inr parent =>
               match node_at fs parent with
               | Some Dir =>
                   if decide (name = "." ∨ name = ".." ∨ endswith s "/")
                   then inl EISDIR
                   else inr (parent ++ [name])
               | Some _ => inl ENOTDIR
               | None => inl ENOENT
               end
           end
       end.

(** [open(s, "wb")]: the file is created or emptied; the result is the
    place of the open file. *)
Definition open_wb (fs : filesystem) (cwd : list string) (s : string)
    : errno + (list string * filesystem) :=
  match locate fs cwd s with
  | inl e => inl e
  | inr target =>
      match fs !! target with
      | None | Some (File _) => inr (target, <[target := File []]> fs)
      | Some Dir => inl EISDIR
      | Some Special => inl ENXIO
      end
  end.

(** [f.write(chunk)] on a file opened by [open_wb] *)
Definition write (fs : filesystem) (target : list string) (chunk : bytes)
    : filesystem :=
  match fs !! target with
  | Some (File data) => <[target := File (data ++ chunk)]> fs
  | _ => fs
  end.

(** [open(s, "rb")] followed by [f.read()] *)
Definition read_rb (fs : filesystem) (cwd : list string) (s : string)
    : errno + bytes :=
  match locate fs cwd s with
  | inl e => inl e
  | inr target =>
      match fs !! target with
      | None => inl ENOENT
      | Some (File data) => inr data
      | Some Dir => inl EISDIR
      | Some Special => inl ENXIO
      end
  end.

(** [Path.is_file()]: a failing [stat] counts as no. *)
Definition is_file (fs : filesystem) (cwd : list string) (s : string) : bool :=
  match stat fs cwd s with
  | inr (File _) => true
  | _ => false
  end.

(** [below] goes through directories only from [base] to the entry it
    names. *)
Definition reached (fs : filesystem) (base below : list string) : bool :=
  forallb (λ n, match node_at fs (base ++ take n below) with
                | Some Dir => true
                | _ => false
                end)
          (seq 0 (length below)).

Definition is_dir (fs : filesystem) (p : list string) : bool :=
  match fs !! p with
  | Some Dir => true
  | _ => false
  end.

Section Scandir.

Context `{Host}.

(** The names of the entries of the directory [d]. *)
Definition entries_of (fs : filesystem) (d : list string) : list string :=
  omap (λ p, match pathlib.strip_names d p with
             | Some [name] => Some name
             | _ => None
             end)
       (map_to_list fs).*1.

(** [os.scandir(d)]: the names of the entries of [d] as the host lists
    them. *)
Definition scandir (fs : filesystem) (d : list string) : list string :=
  listing d (entries_of fs d).

(** The sub-directories of [d], in the order in which [rglob] goes into
    them. *)
Definition subdirs (fs : filesystem) (d : list string) : list string :=
  visiting d (filter (λ name, is_dir fs (d ++ [name])) (scandir fs d)).

(** The directories that [rglob] visits from [base / rel] on, as names from
    [base]: the directory itself, then each of its sub-directories with all
    that is below it before the next one.  [depth] bounds the descent. *)
Fixpoint directories (depth : nat) (fs : filesystem)
    (base rel : list string) : list (list string) :=
  rel :: match depth with
         | 0 => []
         | S depth' =>
             subdirs fs (base ++ rel)
               ≫= λ name, directories depth' fs base (rel ++ [name])
         end.

(** The entries below the directory [base] in the order of
    [Path.rglob("*")], as names from [base]: for each directory visited,
    all its entries, of any kind.  So every entry of a directory comes
    before the entries of its sub-directories.  No directory lies deeper
    than the file system has entries, which bounds the descent. *)
Definition below (fs : filesystem) (base : list string)
    : list (list string) :=
  directories (size fs) fs base []
    ≫= λ rel, (λ name, rel ++ [name]) <$> scandir fs (base ++ rel).

(** [p.rglob("*")]: every entry below the directory [p], of any kind, as
    [p] extended by its names; nothing if [p] is not a directory. *)
Definition rglob (fs : filesystem) (cwd : list string) (p : Path)
    : list Path :=
  match stat fs cwd (pathlib.str p) with
  | inr Dir =>
      match walk fs (origin cwd (pathlib.str p)) (components (pathlib.str p)) with
      | inr base =>
          (λ names, mkPath (pathlib.root p) (pathlib.tail p ++ names))
            <$> below fs base
      | inl _ => []
      end
  | _ => []
  end.

End Scandir.

End os.

(** ** The logger *)

(** [LogInfo m] is [logger.info(m)]; [LogException m e] is
    [logger.exception(f"{m}\n{e}")]. *)
Inductive log_record :=
  | LogInfo (msg : string)
  | LogException (msg : string) (e : exn).

Section Monad.

Context {B : Type}.

Record world := World {
  store : B;
  calls : list call;
  disk : filesystem;
  cwd : list string;
  logged : list log_record;
}.

Definition set_store (b : B) (w : world) : world :=
  World b (calls w) (disk w) (cwd w) (logged w).
Definition add_call (c : call) (w : world) : world :=
  World (store w) (calls w ++ [c]) (disk w) (cwd w) (logged w).
Definition set_disk (fs : filesystem) (w : world) : world :=
  World (store w) (calls w) fs (cwd w) (logged w).
Definition add_log (r : log_record) (w : world) : world :=
  World (store w) (calls w) (disk w) (cwd w) (logged w ++ [r]).

(** ** State and exceptions *)

Definition M (A : Type) : Type := world → outcome A * world.

Definition ret {A} (a : A) : M A := λ w, (Return a, w).
Definition raise {A} (e : exn) : M A := λ w, (Raise e, w).
Definition bind {A C} (m : M A) (k : A → M C) : M C :=
  λ w, match m w with
       | (Return a, w') => k a w'
       | (Raise e, w') => (Raise e, w')
       end.

(** [try: body / except Exception as e: handler e / finally: final] *)
Definition try_except_finally {A}
    (body : M A) (handler : exn → M A) (final : M unit) : M A :=
  λ w,
    let '(r, w1) := match body w with
                    | (Raise e, w') => handler e w'
                    | (Return a, w') => (Return a, w')
                    end in
    match final w1 with
    | (Raise e', w2) => (Raise e', w2)
    | (Return _, w2) => (r, w2)
    end.

(** [for x in l: body x], where [continue] is [ret tt] *)
Fixpoint for_each {A} (l : list A) (body : A → M unit) : M unit :=
  match l with
  | [] => ret tt
  | x :: l' => bind (body x) (λ _, for_each l' body)
  end.

End Monad.

Arguments world B : clear implicits.
Arguments M B A : clear implicits.

Declare Scope py_scope.
Delimit Scope py_scope with py.
Notation "x <- m ;; k" := (bind m (λ x, k))
  (at level 100, m at next level, right associativity) : py_scope.
Notation "m ;; k" := (bind m (λ _, k))
  (at level 100, right associativity) : py_scope.
Open Scope py_scope.

(** ** The module [z3.s3_client] *)

Section Client.

Context {B : Type} `{S3Client B} `{Host}.
Import Py.

Local Abbreviation M := (M B).

(** *** [logger] *)

Definition logger_info (msg : string) : M unit :=
  λ w, (Return tt, add_log (LogInfo msg) w).
Definition logger_exception (msg : string) (e : exn) : M unit :=
  λ w, (Return tt, add_log (LogException msg e) w).

(** *** [client] *)

Definition client_get_paginator (operation : string) : M unit :=
  λ w, (Return tt, add_call (GetPaginator operation) w).

Definition client_close : M unit :=
  λ w, (Return tt, add_call Close w).

(** [paginator.paginate(Bucket=..., Prefix=...)]: the pages still to be
    requested. *)
Definition paginator_paginate (Bucket Prefix : string)
    : M (list (exn + page)) :=
  λ w, (Return (paginate (store w) Bucket Prefix), w).

(** One step of the iteration over the pages: one request. *)
Definition next_page (Bucket Prefix : string) (r : exn + page) : M page :=
  λ w, let w' := add_call (ListObjectsV2 Bucket Prefix) w in
       match r with
       | inl e => (Raise e, w')
       | inr result => (Return result, w')
       end.

Definition client_copy_object (Bucket Key SrcBucket SrcKey : string) : M unit :=
  λ w, let '(r, b) := s3_copy_object (store w) Bucket Key SrcBucket SrcKey in
       let w' := set_store b (add_call (CopyObject Bucket Key SrcBucket SrcKey) w) in
       match r with
       | Some e => (Raise e, w')
       | None => (Return tt, w')
       end.

Definition client_delete_object (Bucket Key : string) : M unit :=
  λ w, let '(r, b) := s3_delete_object (store w) Bucket Key in
       let w' := set_store b (add_call (DeleteObject Bucket Key) w) in
       match r with
       | Some e => (Raise e, w')
       | None => (Return tt, w')
       end.

Definition client_get_object (Bucket Key : string) : M (list (exn + bytes)) :=
  λ w, let w' := add_call (GetObject Bucket Key) w in
       match s3_get_object (store w) Bucket Key with
       | inl e => (Raise e, w')
       | inr body => (Return body, w')
       end.

Definition client_put_object (Bucket Key : string) (Body : bytes) : M unit :=
  λ w, let '(r, b) := s3_put_object (store w) Bucket Key Body in
       let w' := set_store b (add_call (PutObject Bucket Key Body) w) in
       match r with
       | Some e => (Raise e, w')
       | None => (Return tt, w')
       end.

(** *** [os], [open] and [pathlib] on the world's disk *)

Definition os_makedirs (name : string) : M unit :=
  λ w, match os.makedirs (disk w) (cwd w) name with
       | (Some e, fs) => (Raise (OSError e name), set_disk fs w)
       | (None, fs) => (Return tt, set_disk fs w)
       end.

Definition open_wb (name : string) : M (list string) :=
  λ w, match os.open_wb (disk w) (cwd w) name with
       | inl e => (Raise (OSError e name), w)
       | inr (f, fs) => (Return f, set_disk fs w)
       end.

Definition f_write (f : list string) (chunk : bytes) : M unit :=
  λ w, (Return tt, set_disk (os.write (disk w) f chunk) w).

Definition open_rb_read (name : string) : M bytes :=
  λ w, match os.read_rb (disk w) (cwd w) name with
       | inl e => (Raise (OSError e name), w)
       | inr data => (Return data, w)
       end.

Definition Path_is_file (p : Path) : M bool :=
  λ w, (Return (os.is_file (disk w) (cwd w) (pathlib.str p)), w).

Definition Path_rglob (p : Path) : M (list Path) :=
  λ w, (Return (os.rglob (disk w) (cwd w) p), w).

Definition Path_relative_to (p q : Path) : M Path :=
  match pathlib.relative_to p q with
  | Some r => ret r
  | None => raise (ValueError (pathlib.not_in_subpath p q))
  end.

(** *** The synchronous functions *)

Fixpoint extend_from_pages (bucket_name prefix : string)
    (pages : list (exn + page)) (object_keys : list string)
    : M (list string) :=
  match pages with
  | [] => ret object_keys
  | r :: pages' =>
      result <- next_page bucket_name prefix r ;;
      let contents := default [] (Contents result) in
      let _object_keys := map Key contents in
      extend_from_pages bucket_name prefix pages' (object_keys ++ _object_keys)
  end.

Definition list_object_keys (bucket_name prefix : string)
    (exclude_folders : bool) : M (list string) :=
  if startswith prefix "/" then raise (ValueError "prefix must not start with /")
  else
    object_keys <-
      try_except_finally
        (client_get_paginator "list_objects_v2" ;;
         pages <- paginator_paginate bucket_name prefix ;;
         extend_from_pages bucket_name prefix pages [])
        (λ e, logger_exception "Failed to list objects:" e ;; raise e)
        client_close ;;
    let object_keys :=
      if exclude_folders
      then filter (λ x, negb (endswith x "/")) object_keys
      else object_keys in
    ret object_keys.

Definition copy_object
    (src_bucket_name src_object_key dest_bucket_name dest_object_key : string)
    : M unit :=
  if startswith src_object_key "/" || startswith dest_object_key "/"
  then raise (ValueError "object_key must not start with /")
  else
    try_except_finally
      (client_copy_object dest_bucket_name dest_object_key
                          src_bucket_name src_object_key)
      (λ e, logger_exception "Failed to copy object:" e ;; raise e)
      client_close.

Definition delete_object (bucket_name object_key : string) : M unit :=
  if startswith object_key "/"
  then raise (ValueError "object_key must not start with /")
  else
    try_except_finally
      (client_delete_object bucket_name object_key)
      (λ e, logger_exception
              ("Failed to delete object '" +:+ bucket_name +:+ "/"
                 +:+ object_key +:+ "':") e ;;
            raise e)
      client_close.

Definition move_object
    (src_bucket_name src_object_key dest_bucket_name dest_object_key : string)
    : M unit :=
  if startswith src_object_key "/" || startswith dest_object_key "/"
  then raise (ValueError "object_key must not start with /")
  else
    copy_object src_bucket_name src_object_key
                dest_bucket_name dest_object_key ;;
    delete_object src_bucket_name src_object_key.

(** [for chunk in response["Body"].iter_chunks(): f.write(chunk)] *)
Fixpoint write_chunks (f : list string) (chunks : list (exn + bytes)) : M unit :=
  match chunks with
  | [] => ret tt
  | inl e :: _ => raise e
  | inr chunk :: chunks' => f_write f chunk ;; write_chunks f chunks'
  end.

Definition download_object (bucket_name object_key : string)
    (local_path : Path) : M unit :=
  if startswith object_key "/"
  then raise (ValueError "object_key must not start with /")
  else
    try_except_finally
      (logger_info ("Downloading object '" +:+ bucket_name +:+ "/"
                      +:+ object_key +:+ "' to '"
                      +:+ pathlib.str local_path +:+ "'") ;;
       response <- client_get_object bucket_name object_key ;;
       os_makedirs (os.dirname (pathlib.str local_path)) ;;
       f <- open_wb (pathlib.str local_path) ;;
       write_chunks f response)
      (λ e, logger_exception
              ("Failed to download a object '" +:+ bucket_name +:+ "/"
                 +:+ object_key +:+ "':") e ;;
            raise e)
      client_close.

(** The body of the loop of [download_folder]. *)
Definition download_folder_body (bucket_name prefix : string)
    (local_path : Path) (object_key : string) : M unit :=
  if endswith object_key "/" then ret tt
  else
    relative_object_key <-
      Path_relative_to (pathlib.of_str object_key) (pathlib.of_str prefix) ;;
    let dest_local_path := pathlib.truediv local_path relative_object_key in
    download_object bucket_name object_key dest_local_path.

Definition download_folder (bucket_name prefix : string)
    (local_path : Path) : M unit :=
  if startswith prefix "/" then raise (ValueError "prefix must not start with /")
  else
    object_keys <- list_object_keys bucket_name prefix true ;;
    for_each object_keys (download_folder_body bucket_name prefix local_path).

Definition put_object (bucket_name object_key : string)
    (local_path : Path) : M unit :=
  if startswith object_key "/"
  then raise (ValueError "object_key must not start with /")
  else
    try_except_finally
      (file_data <- open_rb_read (pathlib.str local_path) ;;
       client_put_object bucket_name object_key file_data)
      (λ e, logger_exception
              ("Failed to upload object '" +:+ bucket_name +:+ "/"
                 +:+ object_key +:+ "':") e ;;
            raise e)
      client_close.

(** The body of the loop of [put_folder]. *)
Definition put_folder_body (bucket_name prefix : string)
    (local_path local_file_path : Path) : M unit :=
  regular <- Path_is_file local_file_path ;;
  if negb regular then ret tt
  else
    relative_path <- Path_relative_to local_file_path local_path ;;
    let s3_key :=
      pathlib.str (pathlib.truediv (pathlib.of_str prefix) relative_path) in
    put_object bucket_name s3_key local_file_path.

Definition put_folder (bucket_name prefix : string)
    (local_path : Path) : M unit :=
  if startswith prefix "/" then raise (ValueError "prefix must not start with /")
  else
    found <- Path_rglob local_path ;;
    for_each found (put_folder_body bucket_name prefix local_path).

(** *** The asynchronous functions *)

(** Modelled from the spec: [z3.asyncable.run_in_executor], which is not
    among the sources.  The spec has it schedule the synchronous operation
    on a background worker and suspend the caller until the worker
    completes, the caller then resuming with the result or the error.
    [Scheduled job] is the pending call; [await] runs it to completion and
    hands over its outcome. *)
Inductive awaitable (A : Type) :=
  | Scheduled (job : M A).
Arguments Scheduled {A} job.

Definition run_in_executor {A} (executor : option unit) (func : M A)
    : awaitable A :=
  Scheduled func.

Definition await {A} (a : awaitable A) : M A :=
  match a with
  | Scheduled job => job
  end.

Definition alist_object_keys (bucket_name prefix : string)
    (exclude_folders : bool) : M (list string) :=
  await (run_in_executor None
           (list_object_keys bucket_name prefix exclude_folders)).

Definition acopy_object
    (src_bucket_name src_object_key dest_bucket_name dest_object_key : string)
    : M unit :=
  await (run_in_executor None
           (copy_object src_bucket_name src_object_key
                        dest_bucket_name dest_object_key)) ;;
  ret tt.

Definition adelete_object (bucket_name object_key : string) : M unit :=
  await (run_in_executor None (delete_object bucket_name object_key)).

Definition amove_object
    (src_bucket_name src_object_key dest_bucket_name dest_object_key : string)
    : M unit :=
  await (run_in_executor None
           (move_object src_bucket_name src_object_key
                        dest_bucket_name dest_object_key)).

Definition adownload_object (bucket_name object_key : string)
    (local_path : Path) : M unit :=
  await (run_in_executor None
           (download_object bucket_name object_key local_path)).

Definition adownload_folder (bucket_name prefix : string)
    (local_path : Path) : M unit :=
  await (run_in_executor None
           (download_folder bucket_name prefix local_path)).

Definition aput_object (bucket_name object_key : string)
    (local_path : Path) : M unit :=
  await (run_in_executor None (put_object bucket_name object_key local_path)).

Definition aput_folder (bucket_name prefix : string)
    (local_path : Path) : M unit :=
  await (run_in_executor None (put_folder bucket_name prefix local_path)).

End Client.

(** ** A scripted backend

    The stub answers every request from a fixed script and keeps no state of
    its own; what was asked of it is in the [calls] of the world. *)

Record stub := Stub {
  stub_pages : list (exn + page);
  stub_copy : option exn;
  stub_delete : option exn;
  stub_get : string → exn + list (exn + bytes);
  stub_put : option exn;
}.

#[export] Instance stub_client : S3Client stub := {
  paginate s _ _ := stub_pages s;
  s3_copy_object s _ _ _ _ := (stub_copy s, s);
  s3_delete_object s _ _ := (stub_delete s, s);
  s3_get_object s _ Key := stub_get s Key;
  s3_put_object s _ _ _ := (stub_put s, s);
}.

Definition keys_page (keys : list string) : page :=
  {| Contents := Some (map Build_s3_object keys) |}.

(** A stub that accepts everything and holds no object. *)
Definition quiet : stub :=
  Stub [inr {| Contents := None |}] None None (λ _, inl (ClientError "NoSuchKey")) None.

(** A listing in three pages. *)
Definition three_pages : list page :=
  [keys_page ["logs/a"; "logs/b"]; keys_page ["logs/2024/"; "logs/2024/c"];
   keys_page ["logs/d"]].

Definition paged : stub :=
  Stub (map inr three_pages) None None (λ _, inl (ClientError "NoSuchKey")) None.

(** A stub that copies but refuses to delete. *)
Definition keeps : stub :=
  Stub [] None (Some (ClientError "AccessDenied"))
       (λ _, inl (ClientError "NoSuchKey")) None.

(** A stub that lists [keys] in one page and serves every object in two
    chunks, "hi" and "!". *)
Definition serving (keys : list string) : stub :=
  Stub [inr (keys_page keys)] None None
       (λ _, inr [inr [Byte.x68; Byte.x69]; inr [Byte.x21]]) None.

(** A world with an empty disk, in [/home/user]. *)
Definition fresh (s : stub) : world stub :=
  World s [] {[ ["home"] := Dir; ["home"; "user"] := Dir ]} ["home"; "user"] [].

(** ** Notions used in the statements *)

(** A name as a directory holds it: not empty, without a slash. *)
Definition plain_name (x : string) : Prop :=
  x ≠ "" ∧ os.has_slash x = false.

(** A path whose root is one that [Path(...)] gives and whose names are
    plain. *)
Definition plain_path (p : Path) : Prop :=
  pathlib.root p ∈ ["" ; "/"; "//"] ∧ Forall plain_name (pathlib.tail p).

(** A name of an entry of a directory: plain, and neither ["."] nor [".."]. *)
Definition entry_name (x : string) : Prop :=
  plain_name x ∧ x ≠ "." ∧ x ≠ "..".

(** Where the resolution of a path starts. *)
Definition start (cwd : list string) (p : Path) : list string :=
  if decide (pathlib.root p = "") then cwd else [].

#[local] Instance plain_name_dec x : Decision (plain_name x).
Proof. unfold plain_name. apply _. Defined.

#[local] Instance entry_name_dec x : Decision (entry_name x).
Proof. unfold entry_name. apply _. Defined.

#[local] Instance plain_path_dec p : Decision (plain_path p).
Proof. unfold plain_path. apply _. Defined.

(** From [fs] to [fs'] nothing was touched but directories were added. *)
Definition only_new_dirs (fs fs' : filesystem) : Prop :=
  ∀ p, fs' !! p = fs !! p ∨ (fs !! p = None ∧ fs' !! p = Some Dir).

Definition same_kind (n n' : node) : Prop :=
  match n, n' with
  | Dir, Dir | File _, File _ | Special, Special => True
  | _, _ => False
  end.

(** Every entry of [fs] is still there in [fs'], as the same kind of entry. *)
Definition grows (fs fs' : filesystem) : Prop :=
  ∀ p n, fs !! p = Some n → ∃ n', fs' !! p = Some n' ∧ same_kind n n'.

(** [written cwd fs items fs']: [fs'] comes from [fs] by storing the [items]
    (path and content) one after the other, each after directories were
    added, in a file that is new or replaces a regular file. *)
Fixpoint written (cwd : list string) (fs : filesystem)
    (items : list (string * bytes)) (fs' : filesystem) : Prop :=
  match items with
  | [] => fs' = fs
  | (s, data) :: items' =>
      ∃ fs1 t,
        only_new_dirs fs fs1
        ∧ os.locate fs1 cwd s = inr t
        ∧ (fs1 !! t = None ∨ ∃ d, fs1 !! t = Some (File d))
        ∧ written cwd (<[t := File data]> fs1) items' fs'
  end.

(** A host that lists a directory in the order of the map and goes into
    the sub-directories in that order. *)
Definition in_map_order : Host :=
  {| listing _ names := names;
     visiting _ names := names;
     listing_perm _ names := reflexivity names;
     visiting_perm _ names := reflexivity names |}.

(** A host that lists and visits the other way round. *)
Definition in_reverse_order : Host :=
  {| listing _ names := reverse names;
     visiting _ names := reverse names;
     listing_perm _ names := reverse_Permutation names;
     visiting_perm _ names := reverse_Permutation names |}.

(** A local tree: [root/a.txt], [root/sub/b.txt], and a socket in
    [root/run]. *)
Definition tree : filesystem :=
  {[ ["home"] := Dir; ["home"; "user"] := Dir; ["home"; "user"; "root"] := Dir;
     ["home"; "user"; "root"; "a.txt"] := File [Byte.x61];
     ["home"; "user"; "root"; "sub"] := Dir;
     ["home"; "user"; "root"; "sub"; "b.txt"] := File [Byte.x62];
     ["home"; "user"; "root"; "run"] := Dir;
     ["home"; "user"; "root"; "run"; "agent.sock"] := Special ]}.

Definition at_tree : world stub := World quiet [] tree ["home"; "user"] [].

Definition page_keys (result : page) : list string :=
  map Key (default [] (Contents result)).

Definition all_keys (pages : list page) : list string :=
  concat (map page_keys pages).

Definition is_folder_marker (key : string) : bool := Py.endswith key "/".

Definition add_calls {B} (cs : list call) (w : world B) : world B :=
  World (store w) (calls w ++ cs) (disk w) (cwd w) (logged w).

Definition download_info (bucket key : string) (local_path : Path) : log_record :=
  LogInfo ("Downloading object '" +:+ bucket +:+ "/" +:+ key +:+ "' to '"
             +:+ pathlib.str local_path +:+ "'").

Definition download_failure (bucket key : string) e : log_record :=
  LogException ("Failed to download a object '" +:+ bucket +:+ "/"
                  +:+ key +:+ "':") e.

(** The body that [iter_chunks] delivers when no read fails. *)
Fixpoint whole_body (chunks : list (exn + bytes)) : option bytes :=
  match chunks with
  | [] => Some []
  | inl _ :: _ => None
  | inr chunk :: chunks' => (chunk ++.) <$> whole_body chunks'
  end.

(** Where [download_folder] puts a key: [local_path / key.relative_to(prefix)]. *)
Definition destination (prefix : string) (local_path : Path) (key : string)
    : option Path :=
  pathlib.truediv local_path
    <$> pathlib.relative_to (pathlib.of_str key) (pathlib.of_str prefix).

(** [key] lies under [prefix] as a path: same root, and the names of [prefix]
    are the first names of [key]. *)
Definition lies_under (key prefix : Path) : Prop :=
  pathlib.root key = pathlib.root prefix
  ∧ pathlib.tail prefix `prefix_of` pathlib.tail key.

(** The names of the destination of a key. *)
Definition target (prefix : string) (local_path : Path) (key : string)
    : list string :=
  pathlib.tail (default local_path (destination prefix local_path key)).

Definition free_or_dir (fs : filesystem) (q : list string) : bool :=
  match fs !! q with
  | None | Some Dir => true
  | _ => false
  end.

Definition free_or_file (fs : filesystem) (q : list string) : bool :=
  match fs !! q with
  | None | Some (File _) => true
  | _ => false
  end.

(** The [targets], names from the directory [base] on, can be written one
    after the other: each is free or a regular file, what is on the way to
    it is free or a directory, and none of them is on the way to another. *)
Definition writable (fs : filesystem) (base : list string)
    (targets : list (list string)) : bool :=
  forallb (λ T, free_or_file fs (base ++ T)
                && forallb (λ n, free_or_dir fs (base ++ take n T)
                                 && bool_decide (take n T ∉ targets))
                           (seq 1 (length T - 1)))
          targets.

(** The regular files below [base]: their names from [base] on and their
    content. *)
Definition regular_files `{Host} (fs : filesystem) (base : list string)
    : list (list string * bytes) :=
  omap (λ names, match fs !! (base ++ names) with
                 | Some (File data) => Some (names, data)
                 | _ => None
                 end)
       (os.below fs base).

(** The key for a file: the names of the prefix, then the names of the file
    from [local_path] on, joined by slashes. *)
Definition upload_key (prefix : string) (names : list string) : string :=
  Py.join "/" (pathlib.tail (pathlib.of_str prefix) ++ names).

Section Notions.

Context {B : Type} `{S3Client B}.

(** What the backend holds under a key, if it can be fetched whole. *)
Definition object_body (b : B) (bucket key : string) : option bytes :=
  match s3_get_object b bucket key with
  | inl _ => None
  | inr chunks => whole_body chunks
  end.

(** The path and the content of the file for a key, for the keys that have
    both. *)
Definition item_of (b : B) (bucket prefix : string) (local_path : Path)
    (key : string) : string * bytes :=
  (pathlib.str (default local_path (destination prefix local_path key)),
   default [] (object_body b bucket key)).

End Notions.

(** The requests that only read from the backend. *)
Definition reading_call (c : call) : Prop :=
  match c with
  | GetPaginator _ | ListObjectsV2 _ _ | GetObject _ _ | Close => True
  | _ => False
  end.

(** The requests of an upload. *)
Definition uploading_call (bucket : string) (c : call) : Prop :=
  match c with
  | PutObject b _ _ => b = bucket
  | Close => True
  | _ => False
  end.

(** A backend that keeps the bytes it is given, by bucket and key, and
    serves an object in one chunk. *)
Record memory := Memory { objects : gmap (string * string) bytes }.

#[export] Instance memory_client : S3Client memory := {
  paginate m Bucket Prefix :=
    [inr (keys_page
            (filter (λ k, Py.startswith k Prefix)
               (omap (λ bk : string * string,
                        if decide (bk.1 = Bucket) then Some bk.2 else None)
                     (map_to_list (objects m)).*1)))];
  s3_copy_object m Bucket Key SrcBucket SrcKey :=
    match objects m !! (SrcBucket, SrcKey) with
    | Some data => (None, Memory (<[(Bucket, Key) := data]> (objects m)))
    | None => (Some (ClientError "NoSuchKey"), m)
    end;
  s3_delete_object m Bucket Key :=
    (None, Memory (delete (Bucket, Key) (objects m)));
  s3_get_object m Bucket Key :=
    match objects m !! (Bucket, Key) with
    | Some data => inr [inr data]
    | None => inl (ClientError "NoSuchKey")
    end;
  s3_put_object m Bucket Key Body :=
    (None, Memory (<[(Bucket, Key) := Body]> (objects m)));
}.

(** An empty store, and the local tree of [tree]. *)
Definition at_tree_memory : world memory :=
  World (Memory ∅) [] tree ["home"; "user"] [].


(** From [w] to [w'] the backend was only read and the disk only grew: the
    store is the same, the requests added are reading ones, and every local
    entry is still there, as the same kind of entry. *)
Definition only_reads {B} (w w' : world B) : Prop :=
  store w' = store w ∧ cwd w' = cwd w ∧ grows (disk w) (disk w')
  ∧ ∃ cs, calls w' = calls w ++ cs ∧ Forall reading_call cs.

(** From [w] to [w'] the disk was left alone and the requests added are
    uploads into [bucket]. *)
Definition only_uploads {B} (bucket : string) (w w' : world B) : Prop :=
  disk w' = disk w ∧ cwd w' = cwd w
  ∧ ∃ cs, calls w' = calls w ++ cs ∧ Forall (uploading_call bucket) cs.


(** A stub that refuses to copy. *)
Definition refuses_copy : stub :=
  Stub [] (Some (ClientError "NoSuchKey")) None
       (λ _, inl (ClientError "NoSuchKey")) None.

(** A stub whose second page request fails. *)
Definition breaks_on_second_page : stub :=
  Stub [inr (keys_page ["logs/a"]); inl (ClientError "SlowDown");
        inr (keys_page ["logs/b"])]
       None None (λ _, inl (ClientError "NoSuchKey")) None.

(** A stub whose body breaks after the first chunk. *)
Definition breaks_in_body : stub :=
  Stub [] None None
       (λ _, inr [inr [Byte.x68; Byte.x69]; inl (ClientError "IncompleteRead");
                  inr [Byte.x21]])
       None.

(** A store that holds one object, [src/a.txt]. *)
Definition one_object : world memory :=
  World (Memory {[ ("src", "a.txt") := [Byte.x61] ]}) []
        {[ ["home"] := Dir; ["home"; "user"] := Dir ]} ["home"; "user"] [].


(** A stub that refuses every upload, over the local tree of [tree]. *)
Definition refuses_put : stub :=
  Stub [] None None (λ _, inl (ClientError "NoSuchKey"))
       (Some (ClientError "AccessDenied")).

Definition at_tree_refused : world stub :=
  World refuses_put [] tree ["home"; "user"] [].


(** ** Lemmas on strings, paths and the file system *)

Section Strings.

Implicit Types (s x : string) (l : list string).

Lemma app_String c s1 s2 : String c s1 +:+ s2 = String c (s1 +:+ s2).
Proof. reflexivity. Qed.

Lemma app_empty_l s : "" +:+ s = s.
Proof. reflexivity. Qed.

Lemma app_empty_r s : s +:+ "" = s.
Proof. induction s as [|c s IH]; [done|]. by rewrite (app_String c s), IH. Qed.

Lemma app_app s1 s2 s3 : s1 +:+ s2 +:+ s3 = (s1 +:+ s2) +:+ s3.
Proof.
  induction s1 as [|c s1 IH]; [done|].
  by rewrite (app_String c s1), (app_String c (s1 +:+ s2)), <- IH.
Qed.

Lemma split_slash_plain x : os.has_slash x = false → Py.split_slash x = [x].
Proof.
  induction x as [|c x IH]; [done|]. simpl.
  intros [Hc Hx]%orb_false_iff. by rewrite Hc, IH.
Qed.

Lemma split_slash_app x s :
  os.has_slash x = false →
  Py.split_slash (x +:+ "/" +:+ s) = x :: Py.split_slash s.
Proof.
  induction x as [|c x IH]; [done|]. simpl.
  intros [Hc Hx]%orb_false_iff. by rewrite Hc, IH.
Qed.

Lemma split_slash_join x l :
  Forall (λ y, os.has_slash y = false) (x :: l) →
  Py.split_slash (Py.join "/" (x :: l)) = x :: l.
Proof.
  revert x. induction l as [|y l IH]; intros x Hall.
  - apply split_slash_plain. by inversion Hall.
  - inversion Hall as [|?? Hx Hl]; subst.
    change (Py.join "/" (x :: y :: l)) with (x +:+ "/" +:+ Py.join "/" (y :: l)).
    by rewrite split_slash_app, IH.
Qed.

Lemma filter_plain l :
  Forall plain_name l → filter (λ y, y ≠ "") l = l.
Proof.
  induction 1 as [|y l [Hy _] _ IH]; [done|].
  by rewrite filter_cons_True, IH.
Qed.

Lemma Forall_plain_slash l :
  Forall plain_name l → Forall (λ y, os.has_slash y = false) l.
Proof. intros Hall. eapply Forall_impl; [done|]. by intros y [_ ?]. Qed.

Lemma components_join l :
  l ≠ [] → Forall plain_name l → os.components (Py.join "/" l) = l.
Proof.
  intros Hne Hall. destruct l as [|x l]; [done|]. unfold os.components.
  rewrite split_slash_join by by apply Forall_plain_slash.
  by apply filter_plain.
Qed.

Lemma startswith_plain x s : plain_name x → Py.startswith (x +:+ s) "/" = false.
Proof.
  intros [Hne Hx]. destruct x as [|c x]; [done|]. simpl in Hx.
  apply orb_false_iff in Hx as [Hc _]. rewrite (app_String c x).
  unfold Py.startswith. cbn [String.prefix].
  destruct (ascii_dec "/" c) as [<-|]; [by simpl in Hc|done].
Qed.

Lemma startswith_join l :
  Forall plain_name l → Py.startswith (Py.join "/" l) "/" = false.
Proof.
  intros Hall. destruct Hall as [|x l Hx Hl]; [done|].
  destruct l as [|y l].
  - rewrite <- (app_empty_r x). by apply startswith_plain.
  - change (Py.join "/" (x :: y :: l)) with (x +:+ "/" +:+ Py.join "/" (y :: l)).
    by apply startswith_plain.
Qed.

Lemma endswith_plain x : os.has_slash x = false → Py.endswith x "/" = false.
Proof.
  induction x as [|c x IH]; [done|]. simpl.
  intros [Hc Hx]%orb_false_iff. by rewrite (IH Hx), orb_false_r, Hc.
Qed.

Lemma endswith_app s x :
  x ≠ "" → Py.endswith (s +:+ x) "/" = Py.endswith x "/".
Proof.
  intros Hx. induction s as [|c s IH]; [done|]. rewrite (app_String c s). simpl.
  rewrite IH. destruct (s +:+ x) as [|c' s'] eqn:Hs.
  - destruct s; [by rewrite app_empty_l in Hs|done].
  - by destruct (Ascii.eqb c "/").
Qed.

Lemma endswith_join l :
  l ≠ [] → Forall plain_name l → Py.endswith (Py.join "/" l) "/" = false.
Proof.
  intros Hne Hall. induction Hall as [|x l [Hx Hs] Hl IH]; [done|].
  destruct l as [|y l]; [by apply endswith_plain|].
  change (Py.join "/" (x :: y :: l)) with (x +:+ "/" +:+ Py.join "/" (y :: l)).
  rewrite app_app.
  assert (Py.join "/" (y :: l) ≠ "") as Hjoin.
  { inversion Hl as [|?? [Hy _] _]; subst. destruct y; [done|].
    by destruct l. }
  rewrite endswith_app by done. by apply IH.
Qed.

End Strings.

Section Paths.

Implicit Types (fs : filesystem) (p : Path) (cur base names : list string).

Lemma split_slash_no_slash s :
  Forall (λ y, os.has_slash y = false) (Py.split_slash s).
Proof.
  induction s as [|c s IH]; simpl; [by repeat constructor|].
  destruct (Ascii.eqb c "/") eqn:Hc; [by constructor|].
  destruct (Py.split_slash s) as [|x xs]; [by repeat constructor; simpl; rewrite Hc|].
  inversion IH; subst. constructor; [|done]. simpl. by rewrite Hc.
Qed.

Lemma of_str_plain s : Forall plain_name (pathlib.tail (pathlib.of_str s)).
Proof.
  unfold pathlib.of_str; simpl. apply Forall_forall.
  intros x [[Hne _] Hin]%list_elem_of_filter. split; [done|].
  by apply (proj1 (Forall_forall _ _) (split_slash_no_slash s)).
Qed.

Lemma of_str_root s : Py.startswith s "/" = false → pathlib.root (pathlib.of_str s) = "".
Proof.
  unfold pathlib.of_str, pathlib.parse_root; simpl. intros Hs. rewrite Hs.
  destruct s as [|c s]; [done|]. unfold Py.startswith in *.
  cbn [String.prefix] in *. destruct (ascii_dec "/" c); [by destruct s|done].
Qed.

Lemma str_names names :
  names ≠ [] → pathlib.str (mkPath "" names) = Py.join "/" names.
Proof. by destruct names. Qed.

Lemma str_rooted p :
  pathlib.tail p ≠ [] →
  pathlib.str p = pathlib.root p +:+ Py.join "/" (pathlib.tail p).
Proof. unfold pathlib.str. destruct (pathlib.root p), (pathlib.tail p); done. Qed.

Lemma components_str p :
  plain_path p → pathlib.tail p ≠ [] →
  os.components (pathlib.str p) = pathlib.tail p.
Proof.
  intros [Hroot Hplain] Hne. rewrite str_rooted by done.
  pose proof (components_join _ Hne Hplain) as Hjoin.
  unfold os.components in *.
  repeat (apply elem_of_cons in Hroot as [->|Hroot]); [done| | |by apply elem_of_nil in Hroot].
  - change ("/" +:+ ?s) with (String "/" s). simpl.
    by rewrite filter_cons_False by naive_solver.
  - change ("//" +:+ ?s) with (String "/" (String "/" s)). simpl.
    by rewrite !filter_cons_False by naive_solver.
Qed.

Lemma origin_str cwd p :
  plain_path p → os.origin cwd (pathlib.str p) = start cwd p.
Proof.
  intros [Hroot Hplain]. unfold os.origin, start, pathlib.str.
  repeat (apply elem_of_cons in Hroot as [->|Hroot]); [| | |by apply elem_of_nil in Hroot].
  - rewrite decide_True by done. destruct (pathlib.tail p) as [|x l] eqn:Ht; [done|].
    by rewrite app_empty_l, startswith_join.
  - rewrite decide_False by done. cbn. by destruct (Py.join "/" _).
  - rewrite decide_False by done.
    by change ("//" +:+ ?s) with (String "/" (String "/" s)).
Qed.

Lemma endswith_str p :
  plain_path p → pathlib.tail p ≠ [] → Py.endswith (pathlib.str p) "/" = false.
Proof.
  intros [_ Hplain] Hne. rewrite str_rooted by done.
  assert (Py.join "/" (pathlib.tail p) ≠ "") as Hjoin.
  { destruct Hplain as [|x l [Hx _] _]; [done|]. destruct x; [done|]. by destruct l. }
  rewrite endswith_app by done. by apply endswith_join.
Qed.

Lemma strip_names_Some (q p r : list string) :
  pathlib.strip_names q p = Some r ↔ p = q ++ r.
Proof.
  revert p. induction q as [|x q IH]; intros p; simpl.
  - split; [by intros [= ->]|by intros ->].
  - destruct p as [|y p]; [done|].
    destruct (decide (x = y)) as [->|Hne].
    + rewrite IH. split; [by intros ->|by intros [= ->]].
    + split; [done|]. by intros [= <- _].
Qed.

Lemma walk_app fs cur l1 l2 :
  os.walk fs cur (l1 ++ l2)
  = match os.walk fs cur l1 with
    | inr mid => os.walk fs mid l2
    | inl e => inl e
    end.
Proof.
  revert cur. induction l1 as [|x l1 IH]; intros cur; simpl; [done|].
  by destruct (os.node_at fs cur) as [[]|].
Qed.

Lemma reached_spec fs base names :
  os.reached fs base names = true ↔
  ∀ n, n < length names → os.node_at fs (base ++ take n names) = Some Dir.
Proof.
  unfold os.reached. rewrite forallb_forall. split.
  - intros Hall n Hn. specialize (Hall n).
    destruct (os.node_at fs (base ++ take n names)) as [[]|]; try done;
      by (discriminate Hall; apply in_seq; lia).
  - intros Hall n [_ Hn]%in_seq. by rewrite Hall by lia.
Qed.

Lemma step_entry cur x : entry_name x → os.step cur x = cur ++ [x].
Proof. intros (_ & ? & ?). unfold os.step. by rewrite !decide_False. Qed.

Lemma walk_entries fs base names :
  Forall entry_name names →
  (∀ n, n < length names → os.node_at fs (base ++ take n names) = Some Dir) →
  os.walk fs base names = inr (base ++ names).
Proof.
  intros Hnames. revert base.
  induction Hnames as [|x names Hx _ IH]; intros base Hdirs; simpl.
  - by rewrite app_nil_r.
  - pose proof (Hdirs 0 ltac:(simpl; lia)) as H0. simpl in H0.
    rewrite app_nil_r in H0. rewrite H0, step_entry by done.
    rewrite IH; [by rewrite <- app_assoc|].
    intros n Hn. rewrite <- app_assoc. apply (Hdirs (S n)). simpl. lia.
Qed.

End Paths.

(** *** The file system under [os.makedirs] and [open] *)

Section Filesystem.

Implicit Types (fs : filesystem) (p cur t : list string) (n : node).

Lemma same_kind_refl n : same_kind n n.
Proof. by destruct n. Qed.

Lemma same_kind_trans n1 n2 n3 :
  same_kind n1 n2 → same_kind n2 n3 → same_kind n1 n3.
Proof. by destruct n1, n2, n3. Qed.

Lemma only_new_dirs_refl fs : only_new_dirs fs fs.
Proof. intros p. by left. Qed.

Lemma only_new_dirs_trans fs1 fs2 fs3 :
  only_new_dirs fs1 fs2 → only_new_dirs fs2 fs3 → only_new_dirs fs1 fs3.
Proof.
  intros H12 H23 p. destruct (H12 p) as [E12|[E1 E2]], (H23 p) as [E23|[E2' E3]].
  - left. congruence.
  - right. split; congruence.
  - right. split; congruence.
  - congruence.
Qed.

Lemma only_new_dirs_insert fs p :
  fs !! p = None → only_new_dirs fs (<[p := Dir]> fs).
Proof.
  intros Hp q. destruct (decide (p = q)) as [<-|Hne].
  - right. by rewrite lookup_insert_eq.
  - left. by rewrite lookup_insert_ne.
Qed.

Lemma grows_refl fs : grows fs fs.
Proof. intros p n Hp. eauto using same_kind_refl. Qed.

Lemma grows_trans fs1 fs2 fs3 : grows fs1 fs2 → grows fs2 fs3 → grows fs1 fs3.
Proof.
  intros H12 H23 p n Hp.
  destruct (H12 p n Hp) as (n2 & Hp2 & Hk2).
  destruct (H23 p n2 Hp2) as (n3 & Hp3 & Hk3).
  eauto using same_kind_trans.
Qed.

Lemma only_new_dirs_grows fs fs' : only_new_dirs fs fs' → grows fs fs'.
Proof.
  intros Hnew p n Hp. destruct (Hnew p) as [E|[E _]]; [|congruence].
  exists n. split; [congruence|apply same_kind_refl].
Qed.

Lemma grows_insert_file fs t data :
  (fs !! t = None ∨ ∃ d, fs !! t = Some (File d)) →
  grows fs (<[t := File data]> fs).
Proof.
  intros Ht p n Hp. destruct (decide (t = p)) as [<-|Hne].
  - rewrite lookup_insert_eq. destruct Ht as [Ht|[d Ht]]; [congruence|].
    exists (File data). split; [done|]. rewrite Ht in Hp. by inversion Hp.
  - rewrite lookup_insert_ne by done. eauto using same_kind_refl.
Qed.

Lemma grows_dir fs fs' p :
  grows fs fs' → os.node_at fs p = Some Dir → os.node_at fs' p = Some Dir.
Proof.
  intros Hg. destruct p as [|x p]; [done|]. simpl. intros Hp.
  destruct (Hg _ _ Hp) as (n' & -> & Hk). by destruct n'.
Qed.

Lemma grows_walk fs fs' cur names r :
  grows fs fs' → os.walk fs cur names = inr r → os.walk fs' cur names = inr r.
Proof.
  intros Hg. revert cur. induction names as [|x names IH]; intros cur; simpl; [done|].
  destruct (os.node_at fs cur) as [[]|] eqn:Hcur; try done.
  rewrite (grows_dir _ _ _ Hg Hcur). apply IH.
Qed.

Lemma grows_locate fs fs' cwd s t :
  grows fs fs' → os.locate fs cwd s = inr t → os.locate fs' cwd s = inr t.
Proof.
  intros Hg. unfold os.locate. destruct (decide (s = "")); [done|].
  destruct (reverse (os.components s)) as [|name before]; [done|].
  destruct (os.walk fs _ _) as [|parent] eqn:Hwalk; [done|].
  rewrite (grows_walk _ _ _ _ _ Hg Hwalk).
  destruct (os.node_at fs parent) as [[]|] eqn:Hparent; try done.
  by rewrite (grows_dir _ _ _ Hg Hparent).
Qed.

(** [os.makedirs] touches nothing that exists and adds directories only,
    whether it succeeds or not. *)
Lemma makedirs_from_only_new_dirs fs cur names :
  only_new_dirs fs (os.makedirs_from fs cur names).2.
Proof.
  revert fs cur. induction names as [|x names IH]; intros fs cur; simpl.
  { apply only_new_dirs_refl. }
  destruct (os.node_at fs cur) as [[]|]; simpl; try apply only_new_dirs_refl.
  destruct (os.node_at fs (os.step cur x)) as [[]|] eqn:Hnext; simpl;
    try apply only_new_dirs_refl.
  - apply IH.
  - eapply only_new_dirs_trans; [|apply IH].
    apply only_new_dirs_insert.
    destruct (os.step cur x); [done|]. done.
Qed.

Lemma makedirs_only_new_dirs fs cwd s :
  only_new_dirs fs (os.makedirs fs cwd s).2.
Proof.
  unfold os.makedirs. destruct (decide (s = "")); simpl.
  - apply only_new_dirs_refl.
  - apply makedirs_from_only_new_dirs.
Qed.

(** [open(s, "wb")] creates or empties one regular file. *)
Lemma open_wb_inr fs cwd s t fs' :
  os.open_wb fs cwd s = inr (t, fs') →
  os.locate fs cwd s = inr t
  ∧ (fs !! t = None ∨ ∃ d, fs !! t = Some (File d))
  ∧ fs' = <[t := File []]> fs.
Proof.
  unfold os.open_wb. destruct (os.locate fs cwd s) as [|t0]; [done|].
  destruct (fs !! t0) as [[]|] eqn:Ht0; try done; intros [= <- <-]; eauto.
Qed.

End Filesystem.

Section Written.

Implicit Types (fs : filesystem) (p cwd t : list string) (n : node).
Implicit Types (items : list (string * bytes)).

Lemma written_grows cwd fs items fs' : written cwd fs items fs' → grows fs fs'.
Proof.
  revert fs. induction items as [|[s data] items IH]; intros fs; simpl.
  - intros ->. apply grows_refl.
  - intros (fs1 & t & Hnew & Hloc & Hold & Hrest).
    eapply grows_trans; [by apply only_new_dirs_grows|].
    eapply grows_trans; [by apply grows_insert_file|]. by apply IH.
Qed.

Lemma written_app cwd fs items1 items2 fs' :
  written cwd fs (items1 ++ items2) fs' ↔
  ∃ fs2, written cwd fs items1 fs2 ∧ written cwd fs2 items2 fs'.
Proof.
  revert fs. induction items1 as [|[s data] items1 IH]; intros fs; simpl.
  - split; [eauto|]. by intros (fs2 & -> & ?).
  - split.
    + intros (fs1 & t & Hnew & Hloc & Hold & Hrest).
      apply IH in Hrest as (fs2 & H1 & H2). exists fs2. split; [|done].
      exists fs1, t. eauto.
    + intros (fs2 & (fs1 & t & Hnew & Hloc & Hold & H1) & H2).
      exists fs1, t. repeat (split; [done|]). apply IH. eauto.
Qed.

(** An entry that no item names keeps its content. *)
Lemma written_other cwd fs items fs' p n :
  written cwd fs items fs' →
  fs !! p = Some n →
  (∀ s data, (s, data) ∈ items → os.locate fs' cwd s ≠ inr p) →
  fs' !! p = Some n.
Proof.
  revert fs. induction items as [|[s data] items IH]; intros fs; simpl.
  - by intros ->.
  - intros (fs1 & t & Hnew & Hloc & Hold & Hrest) Hp Hothers.
    apply (IH _ Hrest).
    + assert (t ≠ p) as Hne.
      { intros ->. apply (Hothers s data); [left|].
        eapply grows_locate; [|done].
        eapply grows_trans; [by apply grows_insert_file|].
        by eapply written_grows. }
      rewrite lookup_insert_ne by done.
      destruct (Hnew p) as [->|[? _]]; congruence.
    + intros s' data' Hin. apply (Hothers s' data'). by right.
Qed.

(** Every item ends up as a regular file; it holds the item's content if no
    later item names the same entry. *)
Lemma written_file cwd fs items fs' s data :
  written cwd fs items fs' →
  (s, data) ∈ items →
  ∃ t d, os.locate fs' cwd s = inr t ∧ fs' !! t = Some (File d).
Proof.
  revert fs. induction items as [|[s0 data0] items IH]; intros fs; simpl.
  - intros _ Hin. by apply elem_of_nil in Hin.
  - intros (fs1 & t & Hnew & Hloc & Hold & Hrest) Hin.
    apply elem_of_cons in Hin as [[= -> ->]|Hin]; [|by eapply IH].
    pose proof (written_grows _ _ _ _ Hrest) as Hg.
    destruct (Hg t (File data0)) as (n' & Ht' & Hk).
    { by rewrite lookup_insert_eq. }
    destruct n' as [|d|]; try done. exists t, d. split; [|done].
    eapply grows_locate; [|done].
    eapply grows_trans; [by apply grows_insert_file|done].
Qed.

Lemma written_last cwd fs items1 s data items2 fs' :
  written cwd fs (items1 ++ (s, data) :: items2) fs' →
  (∀ s' data', (s', data') ∈ items2 →
               os.locate fs' cwd s' ≠ os.locate fs' cwd s) →
  os.read_rb fs' cwd s = inr data.
Proof.
  intros Hw Hlater. apply written_app in Hw as (fs2 & _ & Hw). simpl in Hw.
  destruct Hw as (fs1 & t & Hnew & Hloc & Hold & Hrest).
  assert (os.locate fs' cwd s = inr t) as Hloc'.
  { eapply grows_locate; [|done].
    eapply grows_trans; [by apply grows_insert_file|].
    by eapply written_grows. }
  unfold os.read_rb. rewrite Hloc'.
  assert (fs' !! t = Some (File data)) as ->; [|done].
  apply (written_other _ _ _ _ _ _ Hrest); [by rewrite lookup_insert_eq|].
  intros s' data' Hin. rewrite <- Hloc'. by apply (Hlater s' data').
Qed.

(** Whatever is not named by an item is as before, or is a new directory. *)
Lemma written_frame cwd fs items fs' p :
  written cwd fs items fs' →
  (∃ s data, (s, data) ∈ items ∧ os.locate fs' cwd s = inr p)
  ∨ fs' !! p = fs !! p
  ∨ (fs !! p = None ∧ fs' !! p = Some Dir).
Proof.
  revert fs. induction items as [|[s data] items IH]; intros fs; simpl.
  - intros ->. by right; left.
  - intros (fs1 & t & Hnew & Hloc & Hold & Hrest).
    destruct (IH _ Hrest) as [(s' & data' & Hin & Hloc')|Hp].
    { left. exists s', data'. split; [by right|done]. }
    destruct (decide (t = p)) as [->|Hne].
    { left. exists s, data. split; [by left|].
      eapply grows_locate; [|done].
      eapply grows_trans; [by apply grows_insert_file|].
      by eapply written_grows. }
    right. rewrite lookup_insert_ne in Hp by done.
    destruct (Hnew p) as [E|[E1 E2]], Hp as [E'|[E1' E2']].
    + left. congruence.
    + right. split; congruence.
    + right. split; congruence.
    + congruence.
Qed.

End Written.

(** *** The entries below a directory *)

Section Entries.

Context `{Host}.
Implicit Types (fs : filesystem) (p : Path) (cwd cur base names : list string).

Lemma NoDup_omap_inj {A C} (f : A → option C) (l : list A) :
  (∀ x1 x2 y, f x1 = Some y → f x2 = Some y → x1 = x2) →
  NoDup l → NoDup (omap f l).
Proof.
  intros Hinj. induction 1 as [|x l Hx Hl IH]; csimpl; [constructor|].
  destruct (f x) as [y|] eqn:Hfx; [|done]. constructor; [|done].
  intros (x' & Hx' & Hfx')%list_elem_of_omap.
  by rewrite (Hinj _ _ _ Hfx Hfx') in Hx.
Qed.

Lemma entries_of_spec fs d name :
  name ∈ os.entries_of fs d ↔ is_Some (fs !! (d ++ [name])).
Proof.
  unfold os.entries_of. rewrite list_elem_of_omap. split.
  - intros (q & Hq & Hf).
    apply list_elem_of_fmap in Hq as ([q' n] & -> & Hq%elem_of_map_to_list).
    simpl in Hf.
    destruct (pathlib.strip_names d q') as [[|x [|y l]]|] eqn:Hs; try done.
    injection Hf as ->. apply strip_names_Some in Hs as ->. eauto.
  - intros [n Hn]. exists (d ++ [name]). split.
    + apply list_elem_of_fmap. exists (d ++ [name], n). split; [done|].
      by apply elem_of_map_to_list.
    + by rewrite (proj2 (strip_names_Some d (d ++ [name]) [name]) eq_refl).
Qed.

Lemma entries_of_NoDup fs d : NoDup (os.entries_of fs d).
Proof.
  apply NoDup_omap_inj; [|apply NoDup_fst_map_to_list].
  intros q1 q2 name H1 H2.
  destruct (pathlib.strip_names d q1) as [[|x1 [|y1 l1]]|] eqn:Hs1; try done.
  destruct (pathlib.strip_names d q2) as [[|x2 [|y2 l2]]|] eqn:Hs2; try done.
  apply strip_names_Some in Hs1, Hs2. congruence.
Qed.

Lemma scandir_spec fs d name :
  name ∈ os.scandir fs d ↔ is_Some (fs !! (d ++ [name])).
Proof. unfold os.scandir. by rewrite listing_perm, entries_of_spec. Qed.

Lemma scandir_NoDup fs d : NoDup (os.scandir fs d).
Proof. unfold os.scandir. rewrite listing_perm. apply entries_of_NoDup. Qed.

Lemma is_dir_spec fs q : os.is_dir fs q ↔ fs !! q = Some Dir.
Proof. unfold os.is_dir. by destruct (fs !! q) as [[]|]. Qed.

Lemma subdirs_spec fs d name :
  name ∈ os.subdirs fs d ↔ fs !! (d ++ [name]) = Some Dir.
Proof.
  unfold os.subdirs. rewrite visiting_perm, list_elem_of_filter, scandir_spec.
  rewrite is_dir_spec. split; [by intros [? _]|]. intros Hd. by rewrite Hd.
Qed.

Lemma subdirs_NoDup fs d : NoDup (os.subdirs fs d).
Proof.
  unfold os.subdirs. rewrite visiting_perm.
  apply NoDup_filter, scandir_NoDup.
Qed.

(** The directories visited are those that are reached through
    directories, as far as the bound allows. *)
Lemma directories_spec depth fs base rel r :
  r ∈ os.directories depth fs base rel ↔
  ∃ ext, r = rel ++ ext ∧ length ext ≤ depth
         ∧ ∀ n, 0 < n ≤ length ext →
                fs !! (base ++ rel ++ take n ext) = Some Dir.
Proof.
  revert rel. induction depth as [|depth IH]; intros rel; simpl.
  - rewrite list_elem_of_singleton. split.
    + intros ->. exists []. rewrite app_nil_r. split_and!; [done..|].
      simpl. intros n Hn. lia.
    + intros (ext & -> & Hlen & _). destruct ext; [|simpl in Hlen; lia].
      by rewrite app_nil_r.
  - rewrite elem_of_cons, list_elem_of_bind. split.
    + intros [->|(name & Hr & Hname)].
      * exists []. rewrite app_nil_r. split_and!; [done|simpl; lia|].
        simpl. intros n Hn. lia.
      * apply IH in Hr as (ext & -> & Hlen & Hdirs).
        apply subdirs_spec in Hname.
        exists (name :: ext). rewrite <- app_assoc. split_and!; [done|simpl; lia|].
        intros [|[|n]] Hn; [lia| |].
        -- simpl. by rewrite app_assoc.
        -- specialize (Hdirs (S n)). rewrite <- app_assoc in Hdirs.
           apply Hdirs. simpl in Hn. lia.
    + intros (ext & -> & Hlen & Hdirs). destruct ext as [|name ext].
      { left. by rewrite app_nil_r. }
      right. exists name. split.
      * apply IH. exists ext. rewrite <- app_assoc.
        split_and!; [done|simpl in Hlen; lia|].
        intros n Hn. rewrite <- app_assoc.
        apply (Hdirs (S n)). simpl. lia.
      * apply subdirs_spec. rewrite <- app_assoc. apply (Hdirs 1). simpl. lia.
Qed.

Lemma directories_NoDup depth fs base rel :
  NoDup (os.directories depth fs base rel).
Proof.
  revert rel. induction depth as [|depth IH]; intros rel; simpl.
  { apply NoDup_singleton. }
  constructor.
  - intros (name & Hr & _)%list_elem_of_bind.
    apply directories_spec in Hr as (ext & Hr & _).
    rewrite <- app_assoc in Hr.
    apply (f_equal length) in Hr. rewrite length_app in Hr. simpl in Hr. lia.
  - apply NoDup_bind; [|by intros|apply subdirs_NoDup].
    intros x1 x2 r _ _ H1 H2.
    apply directories_spec in H1 as (ext1 & -> & _).
    apply directories_spec in H2 as (ext2 & Heq & _).
    rewrite <- !app_assoc in Heq. apply app_inv_head in Heq. by injection Heq.
Qed.

(** A chain of entries, each inside the one before, is no longer than the
    file system has entries. *)
Lemma chain_length fs d ext :
  (∀ n, 0 < n ≤ length ext → is_Some (fs !! (d ++ take n ext))) →
  length ext ≤ size fs.
Proof.
  intros Hchain.
  assert (((λ n, d ++ take n ext) <$> seq 1 (length ext))
            ⊆+ (map_to_list fs).*1) as Hsub; last first.
  { apply submseteq_length in Hsub.
    by rewrite !length_fmap, length_seq, length_map_to_list in Hsub. }
  apply NoDup_submseteq.
  - apply NoDup_fmap_2_strong; [|apply NoDup_seq].
    intros n1 n2 [? ?]%elem_of_seq [? ?]%elem_of_seq Heq.
    apply (f_equal length) in Heq.
    rewrite !length_app, !length_take in Heq. lia.
  - intros q (n & -> & [? ?]%elem_of_seq)%list_elem_of_fmap.
    destruct (Hchain n) as [x Hx]; [lia|].
    apply list_elem_of_fmap. exists (d ++ take n ext, x). split; [done|].
    by apply elem_of_map_to_list.
Qed.

Lemma node_at_lookup fs q : q ≠ [] → os.node_at fs q = fs !! q.
Proof. by destruct q. Qed.

(** [rglob] finds the entries that are reached through directories, each
    once. *)
Lemma below_spec fs base names :
  os.node_at fs base = Some Dir →
  names ∈ os.below fs base ↔
  names ≠ [] ∧ is_Some (fs !! (base ++ names)) ∧ os.reached fs base names = true.
Proof.
  intros Hbase. unfold os.below.
  rewrite list_elem_of_bind, reached_spec. split.
  - intros (rel & Hin & Hrel).
    apply list_elem_of_fmap in Hin as (name & -> & Hname%scandir_spec).
    apply directories_spec in Hrel as (ext & Hrel & _ & Hdirs).
    simpl in Hrel. subst ext.
    split_and!; [by destruct rel|by rewrite app_assoc|].
    intros n Hn. rewrite length_app in Hn. simpl in Hn.
    rewrite take_app_le by lia. destruct n as [|n].
    + by rewrite take_0, app_nil_r.
    + destruct rel as [|x rel]; [simpl in Hn; lia|].
      rewrite node_at_lookup by (by destruct base).
      apply (Hdirs (S n)). simpl in *. lia.
  - intros (Hne & Hsome & Hr).
    destruct names as [|name rel _] using rev_ind; [done|].
    assert (∀ n, 0 < n ≤ length rel →
                 fs !! (base ++ take n rel) = Some Dir) as Hdirs.
    { intros n Hn. rewrite <- (Hr n) by (rewrite length_app; simpl; lia).
      rewrite take_app_le by lia. destruct n as [|n]; [lia|].
      symmetry. apply node_at_lookup.
      destruct rel; [simpl in Hn; lia|by destruct base]. }
    exists rel. split.
    + apply list_elem_of_fmap. exists name. split; [done|].
      apply scandir_spec. by rewrite <- app_assoc.
    + apply directories_spec. exists rel. split_and!; [done| |done].
      apply (chain_length fs base). intros n Hn. by rewrite Hdirs.
Qed.

Lemma below_NoDup fs base : NoDup (os.below fs base).
Proof.
  unfold os.below. apply NoDup_bind; [| |apply directories_NoDup].
  - intros rel1 rel2 names _ _
      (n1 & -> & _)%list_elem_of_fmap (n2 & Heq & _)%list_elem_of_fmap.
    by apply app_inj_tail in Heq as [? _].
  - intros rel _. apply NoDup_fmap_2_strong; [|apply scandir_NoDup].
    intros n1 n2 _ _ Heq. by apply app_inv_head in Heq as [= ->].
Qed.

Lemma str_not_empty p : plain_path p → pathlib.tail p ≠ [] → pathlib.str p ≠ "".
Proof.
  intros Hp Hne Hs. pose proof (components_str p Hp Hne) as Hc.
  rewrite Hs in Hc. by destruct (pathlib.tail p).
Qed.

Lemma plain_path_extend p names :
  plain_path p → Forall entry_name names →
  plain_path (mkPath (pathlib.root p) (pathlib.tail p ++ names)).
Proof.
  intros [Hroot Hplain] Hnames. split; [done|]. simpl.
  apply Forall_app. split; [done|].
  eapply Forall_impl; [done|]. by intros x [? _].
Qed.

(** [stat] and [open] on [p / names] find the entry [base ++ names] when [p]
    is the directory [base] and [names] goes through directories. *)
Lemma stat_entry fs cwd p base names :
  plain_path p → Forall entry_name names → names ≠ [] →
  os.walk fs (start cwd p) (pathlib.tail p) = inr base →
  os.reached fs base names = true →
  os.stat fs cwd (pathlib.str (mkPath (pathlib.root p) (pathlib.tail p ++ names)))
  = match fs !! (base ++ names) with
    | Some n => inr n
    | None => inl ENOENT
    end.
Proof.
  intros Hp Hnames Hne Hbase Hr.
  pose proof (plain_path_extend p names Hp Hnames) as Hp'.
  assert (pathlib.tail p ++ names ≠ []) as Hne' by (by destruct (pathlib.tail p), names).
  unfold os.stat. rewrite decide_False by (by apply str_not_empty).
  rewrite origin_str, components_str by done. cbn [pathlib.tail pathlib.root].
  change (start cwd (mkPath (pathlib.root p) (pathlib.tail p ++ names)))
    with (start cwd p).
  rewrite walk_app, Hbase.
  rewrite walk_entries by (by rewrite <- ?reached_spec).
  rewrite endswith_str by done.
  assert (os.node_at fs (base ++ names) = fs !! (base ++ names)) as ->.
  { by destruct base, names. }
  by destruct (fs !! (base ++ names)) as [[]|].
Qed.

Lemma locate_entry fs cwd p base names :
  plain_path p → Forall entry_name names → names ≠ [] →
  os.walk fs (start cwd p) (pathlib.tail p) = inr base →
  os.reached fs base names = true →
  os.locate fs cwd (pathlib.str (mkPath (pathlib.root p) (pathlib.tail p ++ names)))
  = inr (base ++ names).
Proof.
  intros Hp Hnames Hne Hbase Hr.
  pose proof (plain_path_extend p names Hp Hnames) as Hp'.
  assert (pathlib.tail p ++ names ≠ []) as Hne' by (by destruct (pathlib.tail p), names).
  unfold os.locate. rewrite decide_False by (by apply str_not_empty).
  rewrite origin_str, components_str by done. cbn [pathlib.tail pathlib.root].
  change (start cwd (mkPath (pathlib.root p) (pathlib.tail p ++ names)))
    with (start cwd p).
  rewrite endswith_str by done.
  destruct names as [|last init _] using rev_ind; [done|].
  rewrite app_assoc, reverse_snoc, reverse_involutive.
  apply Forall_app in Hnames as [Hinit [Hlast _]%Forall_cons].
  rewrite reached_spec in Hr.
  assert (∀ n, n < length init →
               os.node_at fs (base ++ take n init) = Some Dir) as Hdirs.
  { intros n Hn. rewrite <- (Hr n) by (rewrite length_app; lia).
    by rewrite take_app_le by lia. }
  rewrite walk_app, Hbase, walk_entries by done.
  specialize (Hr (length init)). rewrite take_app_length in Hr.
  rewrite Hr by (rewrite length_app; simpl; lia).
  destruct Hlast as (_ & ? & ?).
  rewrite decide_False by (intros [?|[?|[]]]; done). by rewrite <- app_assoc.
Qed.

End Entries.

(** *** A destination with a directory part *)

Section Storing.

Implicit Types (fs : filesystem) (p : Path) (cur base names : list string).
Implicit Types (s x : string).

Lemma has_slash_app s1 s2 :
  os.has_slash (s1 +:+ s2) = os.has_slash s1 || os.has_slash s2.
Proof.
  induction s1 as [|c s1 IH]; [done|].
  rewrite (app_String c s1). simpl. by rewrite IH, orb_assoc.
Qed.

Lemma all_slashes_app s1 s2 :
  os.all_slashes (s1 +:+ s2) = os.all_slashes s1 && os.all_slashes s2.
Proof.
  induction s1 as [|c s1 IH]; [done|].
  rewrite (app_String c s1). simpl. by rewrite IH, andb_assoc.
Qed.

Lemma upto_last_slash_app s x :
  os.has_slash x = false → os.upto_last_slash (s +:+ "/" +:+ x) = s +:+ "/".
Proof.
  intros Hx. induction s as [|c s IH].
  - change (os.upto_last_slash (String "/" x) = "/").
    cbn [os.upto_last_slash]. by rewrite Hx.
  - change (os.upto_last_slash (String c (s +:+ "/" +:+ x))
            = String c (s +:+ "/")).
    cbn [os.upto_last_slash]. rewrite has_slash_app.
    assert (os.has_slash ("/" +:+ x) = true) as -> by reflexivity.
    by rewrite orb_true_r, IH.
Qed.

Lemma all_slashes_no_end s :
  s ≠ "" → Py.endswith s "/" = false → os.all_slashes s = false.
Proof.
  induction s as [|c s IH]; [done|]. intros _. simpl.
  intros [Heq Hend]%orb_false_iff. destruct s as [|c' s'].
  - simpl in Heq. destruct (Ascii.eqb c "/") eqn:Hc; [|done].
    apply Ascii.eqb_eq in Hc as ->. done.
  - by rewrite IH, andb_false_r.
Qed.

Lemma rstrip_slash_snoc s :
  s ≠ "" → Py.endswith s "/" = false → os.rstrip_slash (s +:+ "/") = s.
Proof.
  induction s as [|c s IH]; [done|]. intros _ Hend.
  rewrite (app_String c s). cbn [os.rstrip_slash].
  rewrite <- (app_String c s), all_slashes_app, all_slashes_no_end by done.
  cbn [andb]. f_equal. simpl in Hend.
  apply orb_false_iff in Hend as [Heq Hend]. destruct s as [|c' s']; [done|].
  by apply IH.
Qed.

Lemma join_snoc l x :
  l ≠ [] → Py.join "/" (l ++ [x]) = Py.join "/" l +:+ "/" +:+ x.
Proof.
  induction l as [|y l IH]; [done|]. intros _. destruct l as [|z l].
  - reflexivity.
  - change (Py.join "/" ((y :: z :: l) ++ [x]))
      with (y +:+ "/" +:+ Py.join "/" ((z :: l) ++ [x])).
    rewrite IH by done.
    change (Py.join "/" (y :: z :: l)) with (y +:+ "/" +:+ Py.join "/" (z :: l)).
    by rewrite !app_app.
Qed.

(** [os.path.dirname] of a path of two names or more is the path without
    its last name. *)
Lemma dirname_str p init last :
  plain_path p → pathlib.tail p = init ++ [last] → init ≠ [] →
  os.dirname (pathlib.str p) = pathlib.str (mkPath (pathlib.root p) init).
Proof.
  intros Hp Htail Hinit.
  assert (plain_path (mkPath (pathlib.root p) init)) as Hparent.
  { destruct Hp as [Hroot Hplain]. split; [done|]. simpl.
    rewrite Htail in Hplain. by apply Forall_app in Hplain as [? _]. }
  assert (os.has_slash last = false) as Hlast.
  { destruct Hp as [_ Hplain]. rewrite Htail in Hplain.
    by apply Forall_app in Hplain as [_ [[_ ?] _]%Forall_cons]. }
  pose proof (str_not_empty _ Hparent Hinit) as Hne.
  pose proof (endswith_str _ Hparent Hinit) as Hend.
  rewrite (str_rooted p) by (rewrite Htail; by destruct init).
  rewrite Htail, join_snoc, app_app by done.
  rewrite (str_rooted (mkPath (pathlib.root p) init)) in * by done.
  cbn [pathlib.root pathlib.tail] in *.
  unfold os.dirname. rewrite upto_last_slash_app by done.
  rewrite all_slashes_app, all_slashes_no_end by done. cbn [andb].
  by apply rstrip_slash_snoc.
Qed.

(** [os.makedirs] along names that are free or directories creates the
    missing ones and touches nothing else. *)
Lemma makedirs_from_ok fs cur names :
  Forall entry_name names →
  os.node_at fs cur = Some Dir →
  (∀ n, 0 < n ≤ length names →
        fs !! (cur ++ take n names) = None
        ∨ fs !! (cur ++ take n names) = Some Dir) →
  ∃ fs1,
    os.makedirs_from fs cur names = (None, fs1)
    ∧ (∀ n, 0 < n ≤ length names → fs1 !! (cur ++ take n names) = Some Dir)
    ∧ (∀ q, (∀ n, 0 < n ≤ length names → q ≠ cur ++ take n names) →
            fs1 !! q = fs !! q).
Proof.
  intros Hnames. revert fs cur.
  induction Hnames as [|x names Hx _ IH]; intros fs cur Hcur Hfree.
  { exists fs. split_and!; [done| |done]. simpl. intros n Hn. lia. }
  cbn [os.makedirs_from]. rewrite Hcur, step_entry by done.
  rewrite node_at_lookup by (by destruct cur).
  pose proof (Hfree 1 ltac:(simpl; lia)) as H1.
  change (take 1 (x :: names)) with [x] in H1.
  assert (∀ fs2,
    fs2 !! (cur ++ [x]) = Some Dir →
    (∀ q, q ≠ cur ++ [x] → fs2 !! q = fs !! q) →
    ∃ fs1,
      os.makedirs_from fs2 (cur ++ [x]) names = (None, fs1)
      ∧ (∀ n, 0 < n ≤ length (x :: names) →
              fs1 !! (cur ++ take n (x :: names)) = Some Dir)
      ∧ (∀ q, (∀ n, 0 < n ≤ length (x :: names) →
                    q ≠ cur ++ take n (x :: names)) →
              fs1 !! q = fs !! q)) as Hrest.
  { intros fs2 Hnext Hsame.
    assert (∀ n, 0 < n → cur ++ [x] ≠ (cur ++ [x]) ++ take n names
                         ∨ length names < n) as Hlonger.
    { intros n Hn. destruct (decide (n ≤ length names)); [left|right; lia].
      intros Heq. apply (f_equal length) in Heq.
      rewrite !length_app, length_take in Heq. simpl in Heq. lia. }
    destruct (IH fs2 (cur ++ [x])) as (fs1 & Hrun & Hdirs & Hframe).
    { rewrite node_at_lookup by (by destruct cur). done. }
    { intros n Hn. rewrite Hsame.
      - rewrite <- app_assoc. apply (Hfree (S n)). simpl. lia.
      - intros Heq. destruct (Hlonger n) as [?|?]; [lia|by auto|lia]. }
    exists fs1. split_and!; [done| |].
    - intros [|[|n]] Hn; [lia| |].
      + simpl. rewrite Hframe; [done|].
        intros n Hn' Heq. destruct (Hlonger n) as [?|?]; [lia|done|lia].
      + specialize (Hdirs (S n)). rewrite <- app_assoc in Hdirs.
        apply Hdirs. simpl in Hn. lia.
    - intros q Hq. rewrite Hframe, Hsame; [done| |].
      + apply (Hq 1). simpl. lia.
      + intros n Hn. rewrite <- app_assoc. apply (Hq (S n)). simpl. lia. }
  destruct H1 as [H1|H1]; rewrite H1.
  - apply Hrest; [by rewrite lookup_insert_eq|].
    intros q Hq. by rewrite lookup_insert_ne.
  - by apply Hrest.
Qed.

Lemma writable_spec fs base (targets : list (list string)) :
  writable fs base targets = true ↔
  ∀ T, T ∈ targets →
    (fs !! (base ++ T) = None ∨ ∃ d, fs !! (base ++ T) = Some (File d))
    ∧ ∀ n, 0 < n < length T →
           (fs !! (base ++ take n T) = None
            ∨ fs !! (base ++ take n T) = Some Dir)
           ∧ take n T ∉ targets.
Proof.
  unfold writable. rewrite forallb_forall.
  assert (∀ q, free_or_file fs q = true
               ↔ fs !! q = None ∨ ∃ d, fs !! q = Some (File d)) as Hfile.
  { intros q. unfold free_or_file.
    destruct (fs !! q) as [[]|]; split; try done; eauto;
      by intros [?|[? ?]]. }
  assert (∀ q, free_or_dir fs q = true
               ↔ fs !! q = None ∨ fs !! q = Some Dir) as Hdir.
  { intros q. unfold free_or_dir.
    destruct (fs !! q) as [[]|]; split; try done; eauto; by intros [?|?]. }
  split.
  - intros Hall T HT%list_elem_of_In. specialize (Hall T HT).
    apply andb_true_iff in Hall as [Hf Hway]. split; [by apply Hfile|].
    intros n Hn. rewrite forallb_forall in Hway.
    specialize (Hway n). rewrite in_seq in Hway.
    apply andb_true_iff in Hway as [Hd Hnot]; [|lia].
    split; [by apply Hdir|]. by apply bool_decide_eq_true in Hnot.
  - intros Hall T HT%list_elem_of_In. destruct (Hall T HT) as [Hf Hway].
    apply andb_true_iff. split; [by apply Hfile|].
    apply forallb_forall. intros n [? ?]%in_seq.
    destruct (Hway n) as [Hd Hnot]; [lia|].
    apply andb_true_iff. split; [by apply Hdir|].
    by apply bool_decide_eq_true.
Qed.

(** Storing one of the targets, after the directories on the way to it
    were made, leaves the targets writable. *)
Lemma writable_step fs fs1 base (targets : list (list string)) init last data :
  writable fs base targets = true →
  init ++ [last] ∈ targets →
  (∀ n, 0 < n ≤ length init → fs1 !! (base ++ take n init) = Some Dir) →
  (∀ q, (∀ n, 0 < n ≤ length init → q ≠ base ++ take n init) →
        fs1 !! q = fs !! q) →
  writable (<[base ++ init ++ [last] := File data]> fs1) base targets = true.
Proof.
  rewrite !writable_spec. intros Hw HT Hdirs Hframe.
  assert (∀ n, 0 < n ≤ length init → take n init ∉ targets) as Hway.
  { intros n Hn. destruct (Hw _ HT) as [_ Hway].
    destruct (Hway n) as [_ Hnot]; [rewrite length_app; simpl; lia|].
    by rewrite take_app_le in Hnot by lia. }
  intros T' HT'. destruct (Hw _ HT') as [Hfile Hon]. split.
  - destruct (decide (T' = init ++ [last])) as [->|Hne].
    { right. exists data. by rewrite lookup_insert_eq. }
    rewrite lookup_insert_ne by (by intros ?%app_inv_head).
    rewrite Hframe; [done|].
    intros n Hn ->%app_inv_head. by apply (Hway n).
  - intros n Hn. destruct (Hon n Hn) as [Hfree Hnot]. split; [|done].
    rewrite lookup_insert_ne; last first.
    { intros Heq%app_inv_head. apply Hnot. by rewrite <- Heq. }
    destruct (decide (n ≤ length init ∧ take n T' = take n init))
      as [[Hle Heq]|Hother].
    + right. rewrite Heq. apply Hdirs. lia.
    + rewrite Hframe; [done|].
      intros m Hm Heq%app_inv_head. apply Hother.
      assert (m = n) as ->; [|split; [lia|done]].
      apply (f_equal length) in Heq. rewrite !length_take in Heq. lia.
Qed.


End Storing.

(** ** Properties *)

Section Properties.

Context {B : Type} `{S3Client B} `{Host}.
Implicit Types (w : world B) (e : exn).

Ltac world_simpl :=
  unfold add_call, add_calls, add_log, set_store, set_disk;
  cbn [store calls disk cwd logged];
  rewrite <- ?app_assoc; cbn [app].

Lemma add_call_add_calls c w : add_call c w = add_calls [c] w.
Proof. reflexivity. Qed.

Lemma add_calls_add_calls cs1 cs2 w :
  add_calls cs2 (add_calls cs1 w) = add_calls (cs1 ++ cs2) w.
Proof. unfold add_calls; simpl. by rewrite app_assoc. Qed.

Lemma add_calls_nil w : add_calls [] w = w.
Proof. destruct w; unfold add_calls; simpl. by rewrite app_nil_r. Qed.

(** *** Keys and prefixes with a leading slash *)

(** C1: a prefix or key that starts with "/" makes every operation that takes
    it raise the ValueError of its check and leave the world as it was, so
    that the record of backend calls has gained nothing. *)
Theorem leading_slash_rejected (p bucket bucket' key : string) (flag : bool)
    (local_path : Path) w :
  Py.startswith p "/" = true →
  list_object_keys bucket p flag w
    = (Raise (ValueError "prefix must not start with /"), w)
  ∧ copy_object bucket p bucket' key w
    = (Raise (ValueError "object_key must not start with /"), w)
  ∧ copy_object bucket key bucket' p w
    = (Raise (ValueError "object_key must not start with /"), w)
  ∧ delete_object bucket p w
    = (Raise (ValueError "object_key must not start with /"), w)
  ∧ move_object bucket p bucket' key w
    = (Raise (ValueError "object_key must not start with /"), w)
  ∧ move_object bucket key bucket' p w
    = (Raise (ValueError "object_key must not start with /"), w)
  ∧ download_object bucket p local_path w
    = (Raise (ValueError "object_key must not start with /"), w)
  ∧ download_folder bucket p local_path w
    = (Raise (ValueError "prefix must not start with /"), w)
  ∧ put_object bucket p local_path w
    = (Raise (ValueError "object_key must not start with /"), w)
  ∧ put_folder bucket p local_path w
    = (Raise (ValueError "prefix must not start with /"), w).
Proof.
  intros Hp.
  unfold list_object_keys, copy_object, delete_object, move_object,
    download_object, download_folder, put_object, put_folder.
  rewrite Hp, orb_true_r. simpl. repeat split.
Qed.

(** *** Listing *)

Lemma extend_from_pages_ok bucket prefix (pages : list page) acc w :
  extend_from_pages bucket prefix (map inr pages) acc w
  = (Return (acc ++ all_keys pages),
     add_calls (replicate (length pages) (ListObjectsV2 bucket prefix)) w).
Proof.
  revert acc w. induction pages as [|pg pages IH]; intros acc w; simpl.
  - unfold ret, all_keys; simpl. by rewrite app_nil_r, add_calls_nil.
  - unfold bind, next_page at 1. rewrite IH.
    rewrite add_call_add_calls, add_calls_add_calls.
    unfold all_keys; simpl. by rewrite app_assoc.
Qed.

(** What a listing does when every page request succeeds. *)
Lemma list_object_keys_run bucket prefix flag (pages : list page) w :
  Py.startswith prefix "/" = false →
  paginate (store w) bucket prefix = map inr pages →
  list_object_keys bucket prefix flag w
  = (Return (if flag
             then filter (λ x, negb (Py.endswith x "/")) (all_keys pages)
             else all_keys pages),
     add_calls (GetPaginator "list_objects_v2"
                  :: replicate (length pages) (ListObjectsV2 bucket prefix)
                  ++ [Close]) w).
Proof.
  intros Hp Hpages. unfold list_object_keys. rewrite Hp.
  unfold bind at 1, try_except_finally.
  unfold bind at 1, client_get_paginator.
  unfold bind at 1, paginator_paginate. cbn [store add_call].
  rewrite Hpages, extend_from_pages_ok. cbn [app].
  unfold client_close, ret.
  rewrite !add_call_add_calls, !add_calls_add_calls. by destruct flag.
Qed.

(** C2: when the listing comes in N pages, [list_object_keys] requests all N
    of them and returns the keys of all pages, in page order; with
    [exclude_folders] the keys ending in "/" are taken out of that list, and
    without it the list is returned as it is. *)
Theorem list_object_keys_all_pages bucket prefix flag (pages : list page) w :
  Py.startswith prefix "/" = false →
  paginate (store w) bucket prefix = map inr pages →
  ∃ w',
    list_object_keys bucket prefix flag w
    = (Return (if flag
               then filter (λ x, negb (is_folder_marker x)) (all_keys pages)
               else all_keys pages), w')
    ∧ calls w' = calls w ++ GetPaginator "list_objects_v2"
                   :: replicate (length pages) (ListObjectsV2 bucket prefix)
                   ++ [Close]
    ∧ store w' = store w ∧ disk w' = disk w ∧ logged w' = logged w.
Proof.
  intros Hp Hpages. eexists. split.
  - apply list_object_keys_run; eassumption.
  - done.
Qed.

(** C8: on the same pages, [exclude_folders=False] returns every enumerated
    key, those ending in "/" included, and [exclude_folders=True] returns
    that same list without the keys ending in "/"; the filter runs on the
    whole list, after the last page. *)
Theorem exclude_folders_filters bucket prefix (pages : list page) w :
  Py.startswith prefix "/" = false →
  paginate (store w) bucket prefix = map inr pages →
  ∃ w',
    list_object_keys bucket prefix false w = (Return (all_keys pages), w')
    ∧ list_object_keys bucket prefix true w
      = (Return (filter (λ x, negb (Py.endswith x "/")) (all_keys pages)), w')
    ∧ ∀ key, key ∈ filter (λ x, negb (Py.endswith x "/")) (all_keys pages)
             ↔ key ∈ all_keys pages ∧ Py.endswith key "/" = false.
Proof.
  intros Hp Hpages. eexists. split; [|split].
  - exact (list_object_keys_run bucket prefix false pages w Hp Hpages).
  - exact (list_object_keys_run bucket prefix true pages w Hp Hpages).
  - intros key. rewrite list_elem_of_filter.
    destruct (Py.endswith key "/"); simpl; intuition congruence.
Qed.

(** *** Moving *)

(** C3: [move_object] is [copy_object] followed by [delete_object] of the
    source and nothing else.  When the backend accepts the copy and refuses
    the delete with [e], the caller gets [e]; the backend has seen one copy
    and one delete (each followed by the [close] of its function) and no
    request that would undo the copy, whose effect on the store stays. *)
Theorem move_object_no_rollback
    (src_bucket src_key dest_bucket dest_key : string) w (b1 b2 : B) e :
  Py.startswith src_key "/" = false →
  Py.startswith dest_key "/" = false →
  s3_copy_object (store w) dest_bucket dest_key src_bucket src_key = (None, b1) →
  s3_delete_object b1 src_bucket src_key = (Some e, b2) →
  move_object src_bucket src_key dest_bucket dest_key w
  = (copy_object src_bucket src_key dest_bucket dest_key ;;
     delete_object src_bucket src_key) w
  ∧ move_object src_bucket src_key dest_bucket dest_key w
    = (Raise e,
       World b2
         (calls w ++ [CopyObject dest_bucket dest_key src_bucket src_key; Close;
                      DeleteObject src_bucket src_key; Close])
         (disk w) (cwd w)
         (logged w ++ [LogException
                         ("Failed to delete object '" +:+ src_bucket +:+ "/"
                            +:+ src_key +:+ "':") e])).
Proof.
  intros Hsrc Hdest Hcopy Hdelete.
  unfold move_object. rewrite Hsrc, Hdest. cbn [orb]. split; [reflexivity|].
  unfold bind at 1, copy_object. rewrite Hsrc, Hdest. cbn [orb].
  unfold try_except_finally, client_copy_object. rewrite Hcopy.
  unfold client_close at 1.
  unfold delete_object. rewrite Hsrc.
  unfold try_except_finally, client_delete_object.
  cbn [store set_store add_call]. rewrite Hdelete.
  unfold bind, logger_exception, raise, client_close.
  world_simpl. reflexivity.
Qed.

(** *** Downloading one object *)

(** C10: when the backend refuses the [get_object], [download_object] raises
    the backend's error with the disk exactly as it was: no directory and no
    file has been created or changed. *)
Theorem download_object_get_fails bucket key (local_path : Path) w e :
  Py.startswith key "/" = false →
  s3_get_object (store w) bucket key = inl e →
  download_object bucket key local_path w
  = (Raise e,
     World (store w) (calls w ++ [GetObject bucket key; Close])
           (disk w) (cwd w)
           (logged w ++ [download_info bucket key local_path;
                         download_failure bucket key e])).
Proof.
  intros Hkey Hget. unfold download_object. rewrite Hkey.
  unfold try_except_finally, bind, logger_info, client_get_object.
  cbn [store add_log]. rewrite Hget.
  unfold logger_exception, raise, client_close.
  by world_simpl.
Qed.

(** A destination without a slash in it has no directory part, and
    [os.makedirs("")] fails: nothing is written. *)
Lemma dirname_no_slash s : os.has_slash s = false → os.dirname s = "".
Proof.
  intros Hs. unfold os.dirname.
  assert (os.upto_last_slash s = "") as ->; [|done].
  destruct s as [|c s]; [done|]. simpl in *.
  apply orb_false_iff in Hs as [Hc Hs]. by rewrite Hs, Hc.
Qed.

Lemma download_object_bare_filename bucket key (local_path : Path) w body :
  Py.startswith key "/" = false →
  s3_get_object (store w) bucket key = inr body →
  os.has_slash (pathlib.str local_path) = false →
  download_object bucket key local_path w
  = (Raise (OSError ENOENT ""),
     World (store w) (calls w ++ [GetObject bucket key; Close])
           (disk w) (cwd w)
           (logged w ++ [download_info bucket key local_path;
                         download_failure bucket key (OSError ENOENT "")])).
Proof.
  intros Hkey Hget Hbare. unfold download_object. rewrite Hkey.
  unfold try_except_finally, bind, logger_info, client_get_object.
  cbn [store add_log]. rewrite Hget.
  rewrite (dirname_no_slash _ Hbare).
  unfold os_makedirs, os.makedirs.
  destruct (decide ("" = "")) as [_|?]; [|done].
  unfold logger_exception, raise, client_close.
  by world_simpl.
Qed.

(** *** The asynchronous functions *)

Lemma bind_ret_tt (m : M B unit) w : (m ;; ret tt) w = m w.
Proof. unfold bind, ret. by destruct (m w) as [[[]|e] w']. Qed.

(** C9: each asynchronous function, awaited, gives the result or the error of
    the synchronous function on the same arguments, and leaves the same
    world. *)
Theorem async_same_as_sync (bucket bucket' key key' : string) (flag : bool)
    (local_path : Path) w :
  alist_object_keys bucket key flag w = list_object_keys bucket key flag w
  ∧ acopy_object bucket key bucket' key' w = copy_object bucket key bucket' key' w
  ∧ adelete_object bucket key w = delete_object bucket key w
  ∧ amove_object bucket key bucket' key' w = move_object bucket key bucket' key' w
  ∧ adownload_object bucket key local_path w
    = download_object bucket key local_path w
  ∧ adownload_folder bucket key local_path w
    = download_folder bucket key local_path w
  ∧ aput_object bucket key local_path w = put_object bucket key local_path w
  ∧ aput_folder bucket key local_path w = put_folder bucket key local_path w.
Proof.
  repeat split; try reflexivity.
  unfold acopy_object. by rewrite bind_ret_tt.
Qed.

(** *** Downloading a folder *)

Lemma write_chunks_ok t chunks w w' d :
  disk w !! t = Some (File d) →
  write_chunks t chunks w = (Return tt, w') →
  ∃ data, whole_body chunks = Some data
          ∧ w' = set_disk (<[t := File (d ++ data)]> (disk w)) w.
Proof.
  revert w d. induction chunks as [|[e|chunk] chunks IH]; intros w d Ht; simpl.
  - intros [= <-]. exists []. split; [done|].
    rewrite app_nil_r, insert_id by done. by destruct w.
  - done.
  - unfold bind, f_write. intros Hrun.
    apply IH with (d := d ++ chunk) in Hrun as (data & -> & ->).
    + exists (chunk ++ data). split; [done|].
      unfold set_disk, os.write; simpl. rewrite Ht.
      by rewrite insert_insert_eq, app_assoc.
    + unfold set_disk, os.write; simpl. rewrite Ht. by rewrite lookup_insert_eq.
Qed.

(** A download that returns has fetched the whole object, has added
    directories and has stored the object in one regular file. *)
Lemma download_object_ok bucket key (local_path : Path) w w' :
  download_object bucket key local_path w = (Return tt, w') →
  ∃ fs1 t data,
    object_body (store w) bucket key = Some data
    ∧ only_new_dirs (disk w) fs1
    ∧ os.locate fs1 (cwd w) (pathlib.str local_path) = inr t
    ∧ (fs1 !! t = None ∨ ∃ d, fs1 !! t = Some (File d))
    ∧ w' = World (store w) (calls w ++ [GetObject bucket key; Close])
                 (<[t := File data]> fs1) (cwd w)
                 (logged w ++ [download_info bucket key local_path]).
Proof.
  unfold download_object. destruct (Py.startswith key "/"); [done|].
  unfold try_except_finally, bind, logger_info, client_get_object, object_body.
  cbn [store add_log].
  destruct (s3_get_object (store w) bucket key) as [e|chunks]; [done|].
  unfold os_makedirs, open_wb, logger_exception, raise, client_close.
  unfold add_call, add_log, set_disk. cbn [store calls disk cwd logged].
  pose proof (makedirs_only_new_dirs (disk w) (cwd w)
                (os.dirname (pathlib.str local_path))) as Hnew.
  destruct (os.makedirs _ _ _) as [[en|] fs1]; [done|]. simpl in Hnew.
  cbn [store calls disk cwd logged].
  destruct (os.open_wb fs1 (cwd w) (pathlib.str local_path))
    as [en|[t fs2]] eqn:Hopen; [done|].
  apply open_wb_inr in Hopen as (Hloc & Hold & ->).
  destruct (write_chunks t chunks _) as [[[]|e] w2] eqn:Hwrite; [|done].
  apply write_chunks_ok with (d := []) in Hwrite as (data & Hbody & ->);
    [|by cbn; rewrite lookup_insert_eq].
  intros [= <-].
  exists fs1, t, data. repeat (split; [done|]).
  world_simpl. by rewrite insert_insert_eq.
Qed.

Lemma for_each_download_ok bucket prefix (local_path : Path) keys w w' :
  for_each keys (download_folder_body bucket prefix local_path) w
    = (Return tt, w') →
  let downloads := filter (λ k, negb (is_folder_marker k)) keys in
  (∀ key, key ∈ downloads →
          is_Some (destination prefix local_path key)
          ∧ is_Some (object_body (store w) bucket key))
  ∧ written (cwd w) (disk w)
            (item_of (store w) bucket prefix local_path <$> downloads) (disk w')
  ∧ store w' = store w ∧ cwd w' = cwd w
  ∧ calls w' = calls w ++ (downloads ≫= λ k, [GetObject bucket k; Close]).
Proof.
  revert w. induction keys as [|key keys IH]; intros w; simpl.
  - intros [= <-]. rewrite app_nil_r. split; [|done].
    intros key' Hin. by apply elem_of_nil in Hin.
  - unfold bind at 1, download_folder_body at 1. rewrite filter_cons.
    destruct (Py.endswith key "/") eqn:Hmarker.
    { rewrite decide_False
        by (unfold is_folder_marker; rewrite Hmarker; simpl; tauto).
      apply IH. }
    rewrite decide_True
      by (unfold is_folder_marker; rewrite Hmarker; simpl; tauto).
    unfold bind at 1, Path_relative_to.
    destruct (pathlib.relative_to _ _) as [rel|] eqn:Hrel; [|done].
    unfold ret at 1.
    destruct (download_object _ _ _ w) as [[[]|e] w1] eqn:Hdl; [|done].
    apply download_object_ok in Hdl
      as (fs1 & t & data & Hbody & Hnew & Hloc & Hold & ->).
    intros Hrest. apply IH in Hrest as (Hall & Hw & Hstore & Hcwd & Hcalls).
    cbn [store cwd disk calls] in *.
    assert (destination prefix local_path key
            = Some (pathlib.truediv local_path rel)) as Hdest.
    { unfold destination. by rewrite Hrel. }
    split; [|split; [|split; [done|split; [done|]]]].
    + intros key' [->|Hin]%elem_of_cons; [|by apply Hall].
      rewrite Hdest, Hbody. eauto.
    + rewrite fmap_cons. cbn [written]. unfold item_of at 1.
      rewrite Hdest, Hbody. cbn [default]. exists fs1, t. eauto.
    + rewrite Hcalls. cbn. by rewrite <- app_assoc.
Qed.

Lemma filter_twice {A} (P : A → Prop) `{!∀ x, Decision (P x)} (l : list A) :
  filter P (filter P l) = filter P l.
Proof.
  induction l as [|x l IH]; [done|]. rewrite filter_cons.
  destruct (decide (P x)); [|done]. rewrite filter_cons_True by done.
  by rewrite IH.
Qed.

(** What [download_folder] has done when it returns: the requests, the
    files and their content, and the rest of the disk. *)
Lemma download_folder_returned bucket prefix (local_path : Path)
    (pages : list page) w w' :
  paginate (store w) bucket prefix = map inr pages →
  download_folder bucket prefix local_path w = (Return tt, w') →
  let downloads := filter (λ k, negb (is_folder_marker k)) (all_keys pages) in
  let names fs dest := os.locate fs (cwd w) (pathlib.str dest) in
  calls w' = calls w ++ GetPaginator "list_objects_v2"
               :: replicate (length pages) (ListObjectsV2 bucket prefix)
               ++ Close :: (downloads ≫= λ k, [GetObject bucket k; Close])
  ∧ (∀ key, key ∈ downloads →
       ∃ dest body d,
         destination prefix local_path key = Some dest
         ∧ object_body (store w) bucket key = Some body
         ∧ os.read_rb (disk w') (cwd w) (pathlib.str dest) = inr d)
  ∧ (∀ before key after dest body,
       downloads = before ++ key :: after →
       destination prefix local_path key = Some dest →
       object_body (store w) bucket key = Some body →
       (∀ key' dest', key' ∈ after →
          destination prefix local_path key' = Some dest' →
          names (disk w') dest' ≠ names (disk w') dest) →
       os.read_rb (disk w') (cwd w) (pathlib.str dest) = inr body)
  ∧ (∀ p,
       (∃ key dest, key ∈ downloads
                    ∧ destination prefix local_path key = Some dest
                    ∧ names (disk w') dest = inr p)
       ∨ disk w' !! p = disk w !! p
       ∨ (disk w !! p = None ∧ disk w' !! p = Some Dir)).
Proof.
  intros Hpages Hrun downloads names. unfold download_folder in Hrun.
  destruct (Py.startswith prefix "/") eqn:Hprefix; [done|].
  unfold bind in Hrun.
  rewrite (list_object_keys_run bucket prefix true pages w Hprefix Hpages) in Hrun.
  apply for_each_download_ok in Hrun as (Hall & Hw & Hstore & Hcwd & Hcalls).
  fold (is_folder_marker) in Hall, Hw, Hcalls.
  change (filter (λ x, negb (Py.endswith x "/")) (all_keys pages))
    with downloads in Hall, Hw, Hcalls.
  unfold downloads in Hall at 1, Hw at 1, Hcalls at 1.
  rewrite filter_twice in Hall, Hw, Hcalls. fold downloads in Hall, Hw, Hcalls.
  cbn [add_calls store cwd disk calls] in *.
  assert (∀ key dest body,
            destination prefix local_path key = Some dest →
            object_body (store w) bucket key = Some body →
            item_of (store w) bucket prefix local_path key
            = (pathlib.str dest, body)) as Hitem.
  { intros key dest body Hd Hb. unfold item_of. by rewrite Hd, Hb. }
  split; [|split; [|split]].
  - rewrite Hcalls, <- app_assoc. f_equal. cbn. by rewrite <- app_assoc.
  - intros key Hin. destruct (Hall key Hin) as [[dest Hd] [body Hb]].
    destruct (written_file _ _ _ _ (pathlib.str dest) body Hw)
      as (t & d & Hloc & Ht).
    { rewrite <- (Hitem key) by done. by apply list_elem_of_fmap_2. }
    exists dest, body, d. repeat (split; [done|]).
    unfold os.read_rb. by rewrite Hloc, Ht.
  - intros before key after dest body Hsplit Hd Hb Hlater.
    rewrite Hsplit, fmap_app, fmap_cons, (Hitem key dest body) in Hw by done.
    apply (written_last _ _ _ _ _ _ _ Hw).
    intros s' data' (key' & Heq & Hin)%list_elem_of_fmap.
    assert (key' ∈ downloads) as Hin'.
    { rewrite Hsplit. apply elem_of_app. right. by right. }
    destruct (Hall key' Hin') as [[dest' Hd'] [body' Hb']].
    rewrite (Hitem key' dest' body') in Heq by done. injection Heq as -> ->.
    by apply (Hlater key').
  - intros p. destruct (written_frame _ _ _ _ p Hw)
      as [(s & data & (key & Heq & Hin)%list_elem_of_fmap & Hloc)|Hp]; [|by right].
    left. destruct (Hall key Hin) as [[dest Hd] [body Hb]].
    rewrite (Hitem key dest body) in Heq by done. injection Heq as -> ->.
    by exists key, dest.
Qed.

(** *** The relative path of a key *)

Lemma relative_to_Some (p q : Path) :
  lies_under p q ↔ is_Some (pathlib.relative_to p q).
Proof.
  unfold lies_under, pathlib.relative_to.
  destruct (decide (pathlib.root p = pathlib.root q)) as [Hroot|Hroot].
  - rewrite fmap_is_Some. split.
    + intros [_ [r Hr]]. exists r. by apply strip_names_Some.
    + intros [r Hr%strip_names_Some]. split; [done|]. by exists r.
  - split; [by intros [? _]|by intros [? ?]].
Qed.

Lemma for_each_app {A} (l1 l2 : list A) (body : A → M B unit) w w1 :
  for_each l1 body w = (Return tt, w1) →
  for_each (l1 ++ l2) body w = for_each l2 body w1.
Proof.
  revert w. induction l1 as [|x l1 IH]; intros w; simpl.
  - by intros [= ->].
  - unfold bind. destruct (body x w) as [[[]|e] w0]; [|done]. apply IH.
Qed.

(** C6: for a listed key that does not end in "/", the destination is
    [local_path] extended by the names of the key that follow the names of
    the prefix.  When the key lies under the prefix as a path, the step is
    the download to that destination; when it does not, the step raises the
    ValueError of [relative_to] and does nothing else, and [download_folder]
    stops there with that error, the keys before it having been
    downloaded. *)
Theorem relative_path_failure bucket prefix (local_path : Path) key :
  is_folder_marker key = false →
  (lies_under (pathlib.of_str key) (pathlib.of_str prefix) →
     ∃ rest,
       pathlib.tail (pathlib.of_str key)
         = pathlib.tail (pathlib.of_str prefix) ++ rest
       ∧ destination prefix local_path key
         = Some (pathlib.truediv local_path (mkPath "" rest))
       ∧ ∀ w, download_folder_body bucket prefix local_path key w
              = download_object bucket key
                  (pathlib.truediv local_path (mkPath "" rest)) w)
  ∧ (¬ lies_under (pathlib.of_str key) (pathlib.of_str prefix) →
     (∀ w, download_folder_body bucket prefix local_path key w
           = (Raise (ValueError (pathlib.not_in_subpath
                                   (pathlib.of_str key) (pathlib.of_str prefix))),
              w))
     ∧ ∀ (pages : list page) before after w w1,
         Py.startswith prefix "/" = false →
         paginate (store w) bucket prefix = map inr pages →
         filter (λ k, negb (is_folder_marker k)) (all_keys pages)
           = before ++ key :: after →
         for_each before (download_folder_body bucket prefix local_path)
           (add_calls (GetPaginator "list_objects_v2"
                         :: replicate (length pages) (ListObjectsV2 bucket prefix)
                         ++ [Close]) w)
           = (Return tt, w1) →
         download_folder bucket prefix local_path w
         = (Raise (ValueError (pathlib.not_in_subpath
                                 (pathlib.of_str key) (pathlib.of_str prefix))),
            w1)).
Proof.
  intros Hmarker. unfold is_folder_marker in Hmarker. split.
  - intros Hunder. pose proof Hunder as [Hroot [rest Hrest]].
    exists rest. split; [done|].
    assert (pathlib.relative_to (pathlib.of_str key) (pathlib.of_str prefix)
            = Some (mkPath "" rest)) as Hrel.
    { unfold pathlib.relative_to. rewrite decide_True by done.
      by apply strip_names_Some in Hrest as ->. }
    split.
    + unfold destination. by rewrite Hrel.
    + intros w. unfold download_folder_body. rewrite Hmarker.
      unfold bind, Path_relative_to. by rewrite Hrel.
  - intros Hnot.
    assert (pathlib.relative_to (pathlib.of_str key) (pathlib.of_str prefix)
            = None) as Hrel.
    { apply eq_None_not_Some. by rewrite <- relative_to_Some. }
    assert (∀ w, download_folder_body bucket prefix local_path key w
                 = (Raise (ValueError (pathlib.not_in_subpath
                             (pathlib.of_str key) (pathlib.of_str prefix))), w))
      as Hbody.
    { intros w. unfold download_folder_body. rewrite Hmarker.
      unfold bind, Path_relative_to. by rewrite Hrel. }
    split; [done|].
    intros pages before after w w1 Hprefix Hpages Hsplit Hbefore.
    unfold download_folder. rewrite Hprefix. unfold bind at 1.
    rewrite (list_object_keys_run bucket prefix true pages w Hprefix Hpages).
    change (filter (λ x, negb (Py.endswith x "/")) (all_keys pages))
      with (filter (λ k, negb (is_folder_marker k)) (all_keys pages)).
    rewrite Hsplit.
    rewrite (for_each_app _ _ _ _ _ Hbefore). simpl.
    unfold bind. by rewrite Hbody.
Qed.

(** *** Downloading a folder whose keys lie under the prefix *)

Lemma of_str_no_slash s :
  pathlib.root (pathlib.of_str s) = "" → Py.startswith s "/" = false.
Proof.
  unfold pathlib.of_str, pathlib.parse_root. cbn [pathlib.root].
  destruct (Py.startswith s "//" && negb (Py.startswith s "///")); [done|].
  by destruct (Py.startswith s "/").
Qed.

Lemma write_chunks_whole t chunks w d data :
  disk w !! t = Some (File d) →
  whole_body chunks = Some data →
  write_chunks t chunks w
  = (Return tt, set_disk (<[t := File (d ++ data)]> (disk w)) w).
Proof.
  revert w d data.
  induction chunks as [|[e|chunk] chunks IH]; intros w d data Ht; simpl.
  - intros [= <-]. unfold ret. rewrite app_nil_r, insert_id by done.
    by destruct w.
  - done.
  - destruct (whole_body chunks) as [rest|] eqn:Hrest; [|done].
    intros [= <-]. unfold bind, f_write.
    rewrite (IH _ (d ++ chunk) rest); [|by unfold set_disk, os.write;
      cbn [disk]; rewrite Ht, lookup_insert_eq|done].
    unfold set_disk, os.write. cbn [store calls disk cwd logged].
    by rewrite Ht, insert_insert_eq, app_assoc.
Qed.

(** A download to a destination with a directory part, on a disk where the
    way to it is free or made of directories and the file itself is free or
    a regular file: the directories are made and the object is stored. *)
Lemma download_object_stores bucket key (dest : Path) init last body w :
  let base := start (cwd w) dest in
  Py.startswith key "/" = false →
  object_body (store w) bucket key = Some body →
  plain_path dest → Forall entry_name (pathlib.tail dest) →
  pathlib.tail dest = init ++ [last] → init ≠ [] →
  os.node_at (disk w) base = Some Dir →
  (∀ n, 0 < n ≤ length init →
        disk w !! (base ++ take n init) = None
        ∨ disk w !! (base ++ take n init) = Some Dir) →
  (disk w !! (base ++ init ++ [last]) = None
   ∨ ∃ d, disk w !! (base ++ init ++ [last]) = Some (File d)) →
  ∃ fs1,
    download_object bucket key dest w
    = (Return tt,
       World (store w) (calls w ++ [GetObject bucket key; Close])
             (<[base ++ init ++ [last] := File body]> fs1) (cwd w)
             (logged w ++ [download_info bucket key dest]))
    ∧ (∀ n, 0 < n ≤ length init → fs1 !! (base ++ take n init) = Some Dir)
    ∧ (∀ q, (∀ n, 0 < n ≤ length init → q ≠ base ++ take n init) →
            fs1 !! q = disk w !! q).
Proof.
  intros base Hkey Hbody Hp Hnames Htail Hinit Hbase Hway Hfile.
  destruct dest as [r t]. cbn [pathlib.tail pathlib.root] in *. subst t.
  assert (plain_path (mkPath r init)) as Hparent.
  { destruct Hp as [Hroot Hplain]. split; [done|]. cbn in *.
    by apply Forall_app in Hplain as [? _]. }
  pose proof Hnames as [Hinits _]%Forall_app.
  destruct (makedirs_from_ok (disk w) base init Hinits Hbase Hway)
    as (fs1 & Hmk & Hdirs & Hframe).
  exists fs1. split; [|done].
  assert (∀ n, 0 < n ≤ length init → base ≠ base ++ take n init) as Hshort.
  { intros n Hn Heq. apply (f_equal length) in Heq.
    rewrite length_app, length_take in Heq. lia. }
  assert (os.node_at fs1 base = Some Dir) as Hbase1.
  { destruct base as [|x base']; [done|]. cbn. rewrite Hframe; [done|].
    intros n Hn. by apply Hshort. }
  assert (os.locate fs1 (cwd w) (pathlib.str (mkPath r (init ++ [last])))
          = inr (base ++ init ++ [last])) as Hloc.
  { apply (locate_entry fs1 (cwd w) (mkPath r []) base (init ++ [last])).
    - destruct Hp as [Hroot _]. split; [done|constructor].
    - done.
    - by destruct init.
    - done.
    - apply reached_spec.
      intros n Hn. rewrite length_app in Hn. simpl in Hn.
      rewrite take_app_le by lia. destruct n as [|n].
      + by rewrite take_0, app_nil_r.
      + rewrite node_at_lookup; [apply Hdirs; lia|].
        destruct init; [done|]. by destruct base. }
  assert (fs1 !! (base ++ init ++ [last]) = disk w !! (base ++ init ++ [last]))
    as Hsame.
  { apply Hframe. intros n Hn Heq%app_inv_head.
    apply (f_equal length) in Heq.
    rewrite length_app, length_take in Heq. simpl in Heq. lia. }
  unfold download_object. rewrite Hkey.
  unfold try_except_finally, bind, logger_info, client_get_object.
  unfold object_body in Hbody. cbn [store add_log].
  destruct (s3_get_object (store w) bucket key) as [e|chunks]; [done|].
  rewrite (dirname_str (mkPath r (init ++ [last])) init last) by done.
  unfold os_makedirs, os.makedirs. unfold add_call, add_log, set_disk.
  cbn [store calls disk cwd logged].
  rewrite decide_False by (by apply str_not_empty).
  rewrite origin_str, components_str by done.
  cbn [pathlib.tail pathlib.root].
  change (start (cwd w) (mkPath r init)) with base. rewrite Hmk.
  unfold open_wb, os.open_wb. cbn [store calls disk cwd logged].
  rewrite Hloc, Hsame.
  destruct Hfile as [->|[d ->]].
  all: rewrite (write_chunks_whole _ _ _ [] body);
    [|by cbn; rewrite lookup_insert_eq|done].
  all: unfold client_close, set_disk, add_call.
  all: cbn [store calls disk cwd logged app].
  all: by rewrite insert_insert_eq, <- app_assoc.
Qed.

Lemma download_folder_body_under bucket prefix (local_path : Path) key rest w :
  is_folder_marker key = false →
  pathlib.root (pathlib.of_str key) = pathlib.root (pathlib.of_str prefix) →
  pathlib.tail (pathlib.of_str key)
    = pathlib.tail (pathlib.of_str prefix) ++ rest →
  destination prefix local_path key
    = Some (pathlib.truediv local_path (mkPath "" rest))
  ∧ download_folder_body bucket prefix local_path key w
    = download_object bucket key
        (pathlib.truediv local_path (mkPath "" rest)) w.
Proof.
  intros Hmarker Hroot Hrest. unfold is_folder_marker in Hmarker.
  assert (pathlib.relative_to (pathlib.of_str key) (pathlib.of_str prefix)
          = Some (mkPath "" rest)) as Hrel.
  { unfold pathlib.relative_to. rewrite decide_True by done.
    by apply strip_names_Some in Hrest as ->. }
  split.
  - unfold destination. by rewrite Hrel.
  - unfold download_folder_body. rewrite Hmarker.
    unfold bind, Path_relative_to. by rewrite Hrel.
Qed.

Lemma for_each_ext {A} (l : list A) (f g : A → M B unit) w :
  (∀ x w0, x ∈ l → f x w0 = g x w0) → for_each l f w = for_each l g w.
Proof.
  revert w. induction l as [|x l IH]; intros w Hfg; simpl; [done|].
  unfold bind. rewrite Hfg by left.
  destruct (g x w) as [[[]|e] w1]; [|done].
  apply IH. intros y w0 Hy. apply Hfg. by right.
Qed.

(** The loop of [download_folder] runs to its end when every key lies under
    the prefix, is served whole, and the destinations are writable. *)
Lemma for_each_download_total bucket prefix (local_path : Path)
    (targets : list (list string)) b c keys w :
  Py.startswith prefix "/" = false →
  plain_path local_path →
  Forall (λ key, is_folder_marker key = false
                 ∧ lies_under (pathlib.of_str key) (pathlib.of_str prefix)
                 ∧ is_Some (object_body b bucket key)
                 ∧ Forall entry_name (target prefix local_path key)
                 ∧ 2 ≤ length (target prefix local_path key)
                 ∧ target prefix local_path key ∈ targets) keys →
  store w = b → cwd w = c →
  os.node_at (disk w) (start c local_path) = Some Dir →
  writable (disk w) (start c local_path) targets = true →
  ∃ w', for_each keys (download_folder_body bucket prefix local_path) w
        = (Return tt, w').
Proof.
  intros Hprefix Hp Hkeys. revert w.
  induction Hkeys
    as [|key keys (Hmarker & [Hroot [rest Hrest]] & [body Hbody]
                   & Hnames & Hlen & Hin) _ IH];
    intros w Hstore Hcwd Hbase Hw.
  { by exists w. }
  destruct (download_folder_body_under bucket prefix local_path key rest w
              Hmarker Hroot Hrest) as [Hdest Hstep].
  assert (pathlib.root (mkPath "" rest) = "") as Hrel by done.
  unfold target in Hnames, Hlen, Hin. rewrite Hdest in Hnames, Hlen, Hin.
  unfold pathlib.truediv in *. rewrite decide_True in * by done.
  cbn [from_option id pathlib.tail pathlib.root] in *.
  destruct (pathlib.tail local_path ++ rest) as [|last init _] eqn:Ht
    using rev_ind; [simpl in Hlen; lia|].
  assert (init ≠ []) as Hinit.
  { intros ->. simpl in Hlen. lia. }
  destruct (proj1 (writable_spec _ _ _) Hw _ Hin) as [Hfile Hway].
  destruct (download_object_stores bucket key
              (mkPath (pathlib.root local_path) (init ++ [last]))
              init last body w) as (fs1 & Hrun & Hdirs & Hframe).
  - apply of_str_no_slash. rewrite Hroot. by apply of_str_root.
  - by rewrite Hstore.
  - destruct Hp as [Hr _]. split; [done|]. cbn.
    eapply Forall_impl; [exact Hnames|]. by intros x [? _].
  - done.
  - done.
  - done.
  - by rewrite Hcwd.
  - rewrite Hcwd. intros n Hn.
    destruct (Hway n) as [Hfree _]; [rewrite length_app; simpl; lia|].
    by rewrite take_app_le in Hfree by lia.
  - by rewrite Hcwd.
  - cbn [for_each]. unfold bind. rewrite Hstep, Hrun.
    rewrite Hcwd in *.
    change (start c (mkPath (pathlib.root local_path) (init ++ [last])))
      with (start c local_path) in *.
    apply IH; [done|done| |by eapply writable_step].
    cbn [disk]. destruct (decide (start c local_path = [])) as [->|Hne]; [done|].
    rewrite node_at_lookup in * by done.
    rewrite lookup_insert_ne; last first.
    { intros Heq. apply (f_equal length) in Heq.
      rewrite !length_app in Heq. simpl in Heq. lia. }
    rewrite Hframe; [done|]. intros n Hn Heq.
    apply (f_equal length) in Heq.
    rewrite length_app, length_take in Heq. lia.
Qed.

(** C4: for a prefix without a leading slash and a listing whose keys not
    ending in "/" all lie under the prefix as a path, [download_folder]
    requests every page of the listing and then runs [download_object] on
    each of these keys, in the order of the listing, to
    [local_path / key.relative_to(prefix)]: [local_path] followed by the
    names of the key after the names of the prefix.  When moreover every
    such object is served whole and the destinations are writable (each has
    a directory part, what is on the way to it is free or a directory, the
    file itself is free or a regular file, and no destination is on the way
    to another), it returns.  And when it returns, every key is a regular
    file at its destination, holding the object's content unless a later
    key was stored in the same file, and every other entry of the disk is
    as before or is a new directory. *)
Theorem download_folder_downloads bucket prefix (local_path : Path)
    (pages : list page) w :
  let downloads := filter (λ k, negb (is_folder_marker k)) (all_keys pages) in
  let listed :=
    add_calls (GetPaginator "list_objects_v2"
                 :: replicate (length pages) (ListObjectsV2 bucket prefix)
                 ++ [Close]) w in
  let names fs dest := os.locate fs (cwd w) (pathlib.str dest) in
  Py.startswith prefix "/" = false →
  paginate (store w) bucket prefix = map inr pages →
  (∀ key, key ∈ downloads →
          lies_under (pathlib.of_str key) (pathlib.of_str prefix)) →
  download_folder bucket prefix local_path w
    = for_each downloads
        (λ key, download_object bucket key
                  (default local_path (destination prefix local_path key)))
        listed
  ∧ (∀ key, key ∈ downloads →
       ∃ rest,
         pathlib.tail (pathlib.of_str key)
           = pathlib.tail (pathlib.of_str prefix) ++ rest
         ∧ destination prefix local_path key
           = Some (mkPath (pathlib.root local_path)
                          (pathlib.tail local_path ++ rest)))
  ∧ (plain_path local_path →
     os.node_at (disk w) (start (cwd w) local_path) = Some Dir →
     Forall (λ key, is_Some (object_body (store w) bucket key)
                    ∧ Forall entry_name (target prefix local_path key)
                    ∧ 2 ≤ length (target prefix local_path key)) downloads →
     writable (disk w) (start (cwd w) local_path)
              (target prefix local_path <$> downloads) = true →
     ∃ w', download_folder bucket prefix local_path w = (Return tt, w'))
  ∧ (∀ w',
       download_folder bucket prefix local_path w = (Return tt, w') →
       calls w' = calls w ++ GetPaginator "list_objects_v2"
                    :: replicate (length pages) (ListObjectsV2 bucket prefix)
                    ++ Close :: (downloads ≫= λ k, [GetObject bucket k; Close])
       ∧ (∀ key, key ∈ downloads →
            ∃ dest body d,
              destination prefix local_path key = Some dest
              ∧ object_body (store w) bucket key = Some body
              ∧ os.read_rb (disk w') (cwd w) (pathlib.str dest) = inr d)
       ∧ (∀ before key after dest body,
            downloads = before ++ key :: after →
            destination prefix local_path key = Some dest →
            object_body (store w) bucket key = Some body →
            (∀ key' dest', key' ∈ after →
               destination prefix local_path key' = Some dest' →
               names (disk w') dest' ≠ names (disk w') dest) →
            os.read_rb (disk w') (cwd w) (pathlib.str dest) = inr body)
       ∧ (∀ p,
            (∃ key dest, key ∈ downloads
                         ∧ destination prefix local_path key = Some dest
                         ∧ names (disk w') dest = inr p)
            ∨ disk w' !! p = disk w !! p
            ∨ (disk w !! p = None ∧ disk w' !! p = Some Dir))).
Proof.
  intros downloads listed names Hprefix Hpages Hunder.
  assert (∀ key, key ∈ downloads → is_folder_marker key = false) as Hmarker.
  { intros key [Hm _]%list_elem_of_filter.
    by destruct (is_folder_marker key). }
  assert (download_folder bucket prefix local_path w
          = for_each downloads (download_folder_body bucket prefix local_path)
              listed) as Hrun.
  { unfold download_folder. rewrite Hprefix. unfold bind at 1.
    by rewrite (list_object_keys_run bucket prefix true pages w Hprefix Hpages). }
  assert (∀ key, key ∈ downloads →
            ∃ rest,
              pathlib.tail (pathlib.of_str key)
                = pathlib.tail (pathlib.of_str prefix) ++ rest
              ∧ destination prefix local_path key
                = Some (mkPath (pathlib.root local_path)
                               (pathlib.tail local_path ++ rest))
              ∧ ∀ w0, download_folder_body bucket prefix local_path key w0
                      = download_object bucket key
                          (default local_path
                             (destination prefix local_path key)) w0)
    as Hsteps.
  { intros key Hin. destruct (Hunder key Hin) as [Hroot [rest Hrest]].
    exists rest. split; [done|].
    pose proof (λ w0, download_folder_body_under bucket prefix local_path key
                        rest w0 (Hmarker key Hin) Hroot Hrest) as Hbody.
    destruct (Hbody w) as [Hdest _]. split; [done|].
    intros w0. destruct (Hbody w0) as [_ ->]. by rewrite Hdest. }
  split; [|split; [|split]].
  - rewrite Hrun. apply for_each_ext. intros key w0 Hin.
    by destruct (Hsteps key Hin) as (rest & _ & _ & ->).
  - intros key Hin. destruct (Hsteps key Hin) as (rest & ? & ? & _). eauto.
  - intros Hp Hbase Hserved Hw. rewrite Hrun.
    apply (for_each_download_total bucket prefix local_path
             (target prefix local_path <$> downloads) (store w) (cwd w));
      try done.
    apply Forall_forall. intros key Hin.
    pose proof (proj1 (Forall_forall _ _) Hserved key Hin) as (? & ? & ?).
    split_and!; try done; [by apply Hmarker|by apply Hunder|].
    by apply list_elem_of_fmap_2.
  - intros w' Hreturn.
    by apply (download_folder_returned bucket prefix local_path pages w w').
Qed.

(** *** Uploading a folder *)

Lemma rglob_dir fs cwd (p : Path) base :
  plain_path p →
  os.stat fs cwd (pathlib.str p) = inr Dir →
  os.walk fs (os.origin cwd (pathlib.str p)) (os.components (pathlib.str p))
    = inr base →
  os.rglob fs cwd p
    = (λ names, mkPath (pathlib.root p) (pathlib.tail p ++ names))
        <$> os.below fs base
  ∧ os.walk fs (start cwd p) (pathlib.tail p) = inr base.
Proof.
  intros Hp Hstat Hwalk. unfold os.rglob. rewrite Hstat, Hwalk. split; [done|].
  rewrite origin_str in Hwalk by done.
  destruct (pathlib.tail p) as [|x l] eqn:Ht.
  - destruct Hp as [Hroot _]. unfold pathlib.str, start in *. rewrite Ht in Hwalk.
    repeat (apply elem_of_cons in Hroot as [Hr|Hroot]);
      [| | |by apply elem_of_nil in Hroot]; rewrite Hr in *.
    + rewrite decide_True in * by done. simpl in *.
      by destruct (os.node_at fs cwd) as [[]|].
    + done.
    + done.
  - by rewrite components_str, Ht in Hwalk by (by rewrite ?Ht).
Qed.

Lemma stat_dir fs cwd s base :
  os.stat fs cwd s = inr Dir →
  os.walk fs (os.origin cwd s) (os.components s) = inr base →
  os.node_at fs base = Some Dir.
Proof.
  unfold os.stat. destruct (decide (s = "")); [done|]. intros Hstat Hwalk.
  rewrite Hwalk in Hstat.
  destruct (os.node_at fs base) as [[]|]; try done;
    by destruct (Py.endswith s "/").
Qed.

Lemma upload_key_str prefix names :
  Py.startswith prefix "/" = false → names ≠ [] →
  pathlib.str (pathlib.truediv (pathlib.of_str prefix) (mkPath "" names))
  = upload_key prefix names.
Proof.
  intros Hprefix Hne. unfold pathlib.truediv. cbn [pathlib.root pathlib.tail].
  rewrite decide_True, (of_str_root _ Hprefix) by done.
  apply str_names. by destruct (pathlib.tail _), names.
Qed.

Lemma upload_key_no_slash prefix names :
  Forall entry_name names → Py.startswith (upload_key prefix names) "/" = false.
Proof.
  intros Hnames. apply startswith_join, Forall_app. split; [apply of_str_plain|].
  eapply Forall_impl; [done|]. by intros x [? _].
Qed.

Lemma put_object_ok bucket key (local_path : Path) w data :
  Py.startswith key "/" = false →
  os.read_rb (disk w) (cwd w) (pathlib.str local_path) = inr data →
  (s3_put_object (store w) bucket key data).1 = None →
  put_object bucket key local_path w
  = (Return tt,
     World (s3_put_object (store w) bucket key data).2
           (calls w ++ [PutObject bucket key data; Close])
           (disk w) (cwd w) (logged w)).
Proof.
  intros Hkey Hread Hput. unfold put_object. rewrite Hkey.
  unfold try_except_finally, bind, open_rb_read, client_put_object.
  rewrite Hread. destruct (s3_put_object _ _ _ _) as [r b]. simpl in Hput.
  subst r. unfold client_close. by world_simpl.
Qed.

Lemma for_each_put_ok bucket prefix (local_path : Path) fs cwd0 base found
    (accepting : B → Prop) w :
  Py.startswith prefix "/" = false →
  plain_path local_path →
  os.walk fs (start cwd0 local_path) (pathlib.tail local_path) = inr base →
  (∀ b key data, accepting b →
     (s3_put_object b bucket key data).1 = None
     ∧ accepting (s3_put_object b bucket key data).2) →
  Forall (λ names, Forall entry_name names ∧ names ≠ []
                   ∧ os.reached fs base names = true) found →
  disk w = fs → cwd w = cwd0 → accepting (store w) →
  ∃ w',
    for_each ((λ names, mkPath (pathlib.root local_path)
                               (pathlib.tail local_path ++ names)) <$> found)
             (put_folder_body bucket prefix local_path) w
    = (Return tt, w')
    ∧ calls w' = calls w
        ++ (omap (λ names, match fs !! (base ++ names) with
                           | Some (File data) => Some (names, data)
                           | _ => None
                           end) found
              ≫= λ f, [PutObject bucket (upload_key prefix f.1) f.2; Close])
    ∧ disk w' = fs ∧ cwd w' = cwd0.
Proof.
  intros Hprefix Hp Hbase Hput Hfound. revert w.
  induction Hfound as [|names found (Hnames & Hne & Hr) _ IH];
    intros w Hdisk Hcwd Hacc.
  { exists w. csimpl. by rewrite app_nil_r. }
  rewrite fmap_cons. cbn [for_each]. unfold bind at 1, put_folder_body at 1.
  unfold bind at 1, Path_is_file, os.is_file. rewrite Hdisk, Hcwd.
  rewrite (stat_entry fs cwd0 local_path base names) by done. csimpl.
  destruct (fs !! (base ++ names)) as [[|data|]|] eqn:Hentry;
    cbn [negb]; try (unfold ret at 1; by apply IH).
  unfold bind at 1, Path_relative_to, pathlib.relative_to.
  cbn [pathlib.root pathlib.tail]. rewrite decide_True by done.
  rewrite (proj2 (strip_names_Some _ _ names) eq_refl). cbn [fmap option_fmap option_map].
  unfold ret at 1. rewrite upload_key_str by done.
  rewrite (put_object_ok _ _ _ _ data).
  - edestruct IH as (w' & Hrun & Hcalls & Hdisk' & Hcwd');
      [| | |exists w'; split; [exact Hrun|]]; [done|done|by apply Hput|].
    rewrite Hcalls. cbn [calls]. rewrite bind_cons, <- app_assoc.
    split; [done|]. by split.
  - by apply upload_key_no_slash.
  - unfold os.read_rb. rewrite Hdisk, Hcwd.
    by rewrite (locate_entry fs cwd0 local_path base names), Hentry.
  - by apply Hput.
Qed.

(** C5: for a directory [local_path] and a backend that accepts the uploads
    (it is, and stays, in a state [accepting] in which no upload is refused),
    [put_folder] returns and has asked for exactly one [put_object] per
    regular file below [local_path], with the file's content, under the key
    made of the names of the prefix followed by the names of the file from
    [local_path] on; directories and other entries give no upload, and the
    disk is unchanged.  The uploads come in the order in which [rglob]
    yields the files, the files of a directory before those of its
    sub-directories, whatever the order in which the host lists a
    directory. *)
Theorem put_folder_uploads bucket prefix (local_path : Path) base
    (accepting : B → Prop) w :
  Py.startswith prefix "/" = false →
  plain_path local_path →
  map_Forall (λ p _, Forall entry_name p) (disk w) →
  os.stat (disk w) (cwd w) (pathlib.str local_path) = inr Dir →
  os.walk (disk w) (os.origin (cwd w) (pathlib.str local_path))
          (os.components (pathlib.str local_path)) = inr base →
  accepting (store w) →
  (∀ b key data, accepting b →
     (s3_put_object b bucket key data).1 = None
     ∧ accepting (s3_put_object b bucket key data).2) →
  ∃ w',
    put_folder bucket prefix local_path w = (Return tt, w')
    ∧ calls w' = calls w
        ++ (regular_files (disk w) base
              ≫= λ f, [PutObject bucket (upload_key prefix f.1) f.2; Close])
    ∧ disk w' = disk w
    ∧ (∀ names data,
         (names, data) ∈ regular_files (disk w) base ↔
         names ≠ []
         ∧ disk w !! (base ++ names) = Some (File data)
         ∧ ∀ n, n < length names →
                os.node_at (disk w) (base ++ take n names) = Some Dir)
    ∧ NoDup (regular_files (disk w) base).*1.
Proof.
  intros Hprefix Hp Hwf Hstat Hwalk Hacc Hput.
  destruct (rglob_dir _ _ _ _ Hp Hstat Hwalk) as [Hglob Hbase].
  pose proof (stat_dir _ _ _ _ Hstat Hwalk) as Hdir.
  assert (Forall (λ names, Forall entry_name names ∧ names ≠ []
                           ∧ os.reached (disk w) base names = true)
                 (os.below (disk w) base)) as Hfound.
  { apply Forall_forall. intros names Hin.
    apply (below_spec _ _ _ Hdir) in Hin as (Hne & [n Hin] & Hr).
    repeat split; [|done..]. apply Hwf in Hin. by apply Forall_app in Hin as [_ ?]. }
  destruct (for_each_put_ok bucket prefix local_path (disk w) (cwd w) base
              (os.below (disk w) base) accepting w Hprefix Hp Hbase Hput Hfound
              eq_refl eq_refl Hacc)
    as (w' & Hrun & Hcalls & Hdisk & Hcwd).
  exists w'. split; [|split; [done|split; [done|split]]].
  - unfold put_folder. rewrite Hprefix. unfold bind, Path_rglob.
    by rewrite Hglob.
  - intros names data. unfold regular_files. rewrite list_elem_of_omap. split.
    + intros (names' & Hin & Hf).
      apply (below_spec _ _ _ Hdir) in Hin as (Hne & _ & Hr).
      destruct (disk w !! (base ++ names')) as [[|data'|]|] eqn:Hentry; try done.
      injection Hf as <- <-. by rewrite <- reached_spec.
    + intros (Hne & Hentry & Hr). exists names. rewrite Hentry. split; [|done].
      apply (below_spec _ _ _ Hdir). rewrite Hentry, reached_spec. eauto.
  - unfold regular_files. rewrite list_fmap_omap.
    apply NoDup_omap_inj; [|apply below_NoDup].
    intros n1 n2 y H1 H2.
    destruct (disk w !! (base ++ n1)) as [[]|]; try done.
    destruct (disk w !! (base ++ n2)) as [[]|]; try done.
    simpl in *. congruence.
Qed.

(** ** Further properties *)

(** *** Copying, deleting and moving *)

Lemma copy_object_outcome
    (src_bucket src_key dest_bucket dest_key : string) w :
  Py.startswith src_key "/" = false →
  Py.startswith dest_key "/" = false →
  copy_object src_bucket src_key dest_bucket dest_key w
  = let answer := s3_copy_object (store w) dest_bucket dest_key
                                 src_bucket src_key in
    (match answer.1 with Some e => Raise e | None => Return tt end,
     World answer.2
       (calls w ++ [CopyObject dest_bucket dest_key src_bucket src_key; Close])
       (disk w) (cwd w)
       (logged w ++ match answer.1 with
                    | Some e => [LogException "Failed to copy object:" e]
                    | None => []
                    end)).
Proof.
  intros Hsrc Hdest. unfold copy_object. rewrite Hsrc, Hdest. cbn [orb].
  unfold try_except_finally, client_copy_object.
  destruct (s3_copy_object _ _ _ _ _) as [[e|] b]; cbn [fst snd];
    unfold bind, logger_exception, raise, client_close; world_simpl;
    by rewrite ?app_nil_r.
Qed.

(** X1: with keys that pass the check, [copy_object] makes one request, the
    copy into [dest_bucket]/[dest_object_key] from the source, then closes
    the client; its outcome is the backend's answer, and a refusal is logged
    once before it is raised. *)
Theorem copy_object_run
    (src_bucket src_key dest_bucket dest_key : string) w :
  Py.startswith src_key "/" = false →
  Py.startswith dest_key "/" = false →
  copy_object src_bucket src_key dest_bucket dest_key w
  = let answer := s3_copy_object (store w) dest_bucket dest_key
                                 src_bucket src_key in
    (match answer.1 with Some e => Raise e | None => Return tt end,
     World answer.2
       (calls w ++ [CopyObject dest_bucket dest_key src_bucket src_key; Close])
       (disk w) (cwd w)
       (logged w ++ match answer.1 with
                    | Some e => [LogException "Failed to copy object:" e]
                    | None => []
                    end)).
Proof. apply copy_object_outcome. Qed.

Lemma delete_object_outcome (bucket key : string) w :
  Py.startswith key "/" = false →
  delete_object bucket key w
  = let answer := s3_delete_object (store w) bucket key in
    (match answer.1 with Some e => Raise e | None => Return tt end,
     World answer.2 (calls w ++ [DeleteObject bucket key; Close])
       (disk w) (cwd w)
       (logged w ++ match answer.1 with
                    | Some e => [LogException
                                   ("Failed to delete object '" +:+ bucket
                                      +:+ "/" +:+ key +:+ "':") e]
                    | None => []
                    end)).
Proof.
  intros Hkey. unfold delete_object. rewrite Hkey.
  unfold try_except_finally, client_delete_object.
  destruct (s3_delete_object _ _ _) as [[e|] b]; cbn [fst snd];
    unfold bind, logger_exception, raise, client_close; world_simpl;
    by rewrite ?app_nil_r.
Qed.

(** X2: with a key that passes the check, [delete_object] makes one delete
    request, then closes the client; its outcome is the backend's answer,
    and a refusal is logged once, with bucket and key, before it is
    raised. *)
Theorem delete_object_run (bucket key : string) w :
  Py.startswith key "/" = false →
  delete_object bucket key w
  = let answer := s3_delete_object (store w) bucket key in
    (match answer.1 with Some e => Raise e | None => Return tt end,
     World answer.2 (calls w ++ [DeleteObject bucket key; Close])
       (disk w) (cwd w)
       (logged w ++ match answer.1 with
                    | Some e => [LogException
                                   ("Failed to delete object '" +:+ bucket
                                      +:+ "/" +:+ key +:+ "':") e]
                    | None => []
                    end)).
Proof. apply delete_object_outcome. Qed.

(** X3: when the backend refuses the copy, [move_object] raises that error
    and never asks for the delete: the source is left alone. *)
Theorem move_object_copy_fails
    (src_bucket src_key dest_bucket dest_key : string) w (b1 : B) e :
  Py.startswith src_key "/" = false →
  Py.startswith dest_key "/" = false →
  s3_copy_object (store w) dest_bucket dest_key src_bucket src_key
    = (Some e, b1) →
  move_object src_bucket src_key dest_bucket dest_key w
  = (Raise e,
     World b1
       (calls w ++ [CopyObject dest_bucket dest_key src_bucket src_key; Close])
       (disk w) (cwd w)
       (logged w ++ [LogException "Failed to copy object:" e])).
Proof.
  intros Hsrc Hdest Hcopy. unfold move_object. rewrite Hsrc, Hdest. cbn [orb].
  unfold bind. rewrite copy_object_outcome by done. by rewrite Hcopy.
Qed.

(** X4: when the backend accepts both requests, [move_object] returns after
    the copy and then the delete of the source, on the store that the copy
    left. *)
Theorem move_object_succeeds
    (src_bucket src_key dest_bucket dest_key : string) w (b1 b2 : B) :
  Py.startswith src_key "/" = false →
  Py.startswith dest_key "/" = false →
  s3_copy_object (store w) dest_bucket dest_key src_bucket src_key
    = (None, b1) →
  s3_delete_object b1 src_bucket src_key = (None, b2) →
  move_object src_bucket src_key dest_bucket dest_key w
  = (Return tt,
     World b2
       (calls w ++ [CopyObject dest_bucket dest_key src_bucket src_key; Close;
                    DeleteObject src_bucket src_key; Close])
       (disk w) (cwd w) (logged w)).
Proof.
  intros Hsrc Hdest Hcopy Hdelete. unfold move_object.
  rewrite Hsrc, Hdest. cbn [orb].
  unfold bind. rewrite copy_object_outcome by done. rewrite Hcopy. cbn [fst snd].
  rewrite delete_object_outcome by done. cbn [store]. rewrite Hdelete.
  cbn [fst snd calls disk cwd logged]. by rewrite !app_nil_r, <- app_assoc.
Qed.

(** *** A listing that fails *)

Lemma extend_from_pages_fails bucket prefix (pages : list page) e rest acc w :
  extend_from_pages bucket prefix (map inr pages ++ inl e :: rest) acc w
  = (Raise e,
     add_calls (replicate (S (length pages)) (ListObjectsV2 bucket prefix)) w).
Proof.
  revert acc w. induction pages as [|pg pages IH]; intros acc w; simpl.
  - done.
  - unfold bind, next_page at 1. rewrite IH.
    by rewrite add_call_add_calls, add_calls_add_calls.
Qed.

(** X5: a listing is all or nothing.  When a page request fails, after any
    number of pages that came through, [list_object_keys] raises that error
    and returns no key; the pages after the failing one are not requested,
    the error is logged once and the client is closed. *)
Theorem list_object_keys_page_fails bucket prefix flag
    (pages : list page) e rest w :
  Py.startswith prefix "/" = false →
  paginate (store w) bucket prefix = map inr pages ++ inl e :: rest →
  list_object_keys bucket prefix flag w
  = (Raise e,
     World (store w)
       (calls w ++ GetPaginator "list_objects_v2"
          :: replicate (S (length pages)) (ListObjectsV2 bucket prefix)
          ++ [Close])
       (disk w) (cwd w)
       (logged w ++ [LogException "Failed to list objects:" e])).
Proof.
  intros Hp Hpages. unfold list_object_keys. rewrite Hp.
  unfold bind at 1, try_except_finally.
  unfold bind at 1, client_get_paginator.
  unfold bind at 1, paginator_paginate. cbn [store add_call].
  rewrite Hpages, extend_from_pages_fails.
  unfold bind, logger_exception, raise, client_close.
  by world_simpl.
Qed.

(** *** Uploading one file *)

Lemma put_object_read_fails bucket key (local_path : Path) w code :
  Py.startswith key "/" = false →
  os.read_rb (disk w) (cwd w) (pathlib.str local_path) = inl code →
  put_object bucket key local_path w
  = (Raise (OSError code (pathlib.str local_path)),
     World (store w) (calls w ++ [Close]) (disk w) (cwd w)
       (logged w ++ [LogException
                       ("Failed to upload object '" +:+ bucket +:+ "/"
                          +:+ key +:+ "':")
                       (OSError code (pathlib.str local_path))])).
Proof.
  intros Hkey Hread. unfold put_object. rewrite Hkey.
  unfold try_except_finally, bind, open_rb_read. rewrite Hread.
  unfold logger_exception, raise, client_close. by destruct w.
Qed.

(** X6: when the local file cannot be opened for reading, [put_object]
    raises the OSError without any upload request; the error is logged and
    the client is closed. *)
Theorem put_object_unreadable bucket key (local_path : Path) w code :
  Py.startswith key "/" = false →
  os.read_rb (disk w) (cwd w) (pathlib.str local_path) = inl code →
  put_object bucket key local_path w
  = (Raise (OSError code (pathlib.str local_path)),
     World (store w) (calls w ++ [Close]) (disk w) (cwd w)
       (logged w ++ [LogException
                       ("Failed to upload object '" +:+ bucket +:+ "/"
                          +:+ key +:+ "':")
                       (OSError code (pathlib.str local_path))])).
Proof. apply put_object_read_fails. Qed.

Lemma put_object_outcome bucket key (local_path : Path) w data :
  Py.startswith key "/" = false →
  os.read_rb (disk w) (cwd w) (pathlib.str local_path) = inr data →
  put_object bucket key local_path w
  = let answer := s3_put_object (store w) bucket key data in
    (match answer.1 with Some e => Raise e | None => Return tt end,
     World answer.2 (calls w ++ [PutObject bucket key data; Close])
       (disk w) (cwd w)
       (logged w ++ match answer.1 with
                    | Some e => [LogException
                                   ("Failed to upload object '" +:+ bucket
                                      +:+ "/" +:+ key +:+ "':") e]
                    | None => []
                    end)).
Proof.
  intros Hkey Hread. unfold put_object. rewrite Hkey.
  unfold try_except_finally, bind, open_rb_read, client_put_object.
  rewrite Hread.
  destruct (s3_put_object _ _ _ _) as [[e|] b]; cbn [fst snd];
    unfold logger_exception, raise, client_close; world_simpl;
    by rewrite ?app_nil_r.
Qed.

(** X7: when the local file holds [data], [put_object] makes one upload
    request with the whole of [data] as body, then closes the client; its
    outcome is the backend's answer, a refusal being logged before it is
    raised, and the disk is not touched. *)
Theorem put_object_run bucket key (local_path : Path) w data :
  Py.startswith key "/" = false →
  os.read_rb (disk w) (cwd w) (pathlib.str local_path) = inr data →
  put_object bucket key local_path w
  = let answer := s3_put_object (store w) bucket key data in
    (match answer.1 with Some e => Raise e | None => Return tt end,
     World answer.2 (calls w ++ [PutObject bucket key data; Close])
       (disk w) (cwd w)
       (logged w ++ match answer.1 with
                    | Some e => [LogException
                                   ("Failed to upload object '" +:+ bucket
                                      +:+ "/" +:+ key +:+ "':") e]
                    | None => []
                    end)).
Proof. apply put_object_outcome. Qed.

(** *** Downloading: what is written and what is kept *)

Lemma download_object_result bucket key (local_path : Path) w w' :
  download_object bucket key local_path w = (Return tt, w') →
  ∃ data,
    object_body (store w) bucket key = Some data
    ∧ os.read_rb (disk w') (cwd w) (pathlib.str local_path) = inr data
    ∧ store w' = store w
    ∧ ∀ p, os.locate (disk w') (cwd w) (pathlib.str local_path) = inr p
           ∨ disk w' !! p = disk w !! p
           ∨ (disk w !! p = None ∧ disk w' !! p = Some Dir).
Proof.
  intros (fs1 & t & data & Hbody & Hnew & Hloc & Hold & ->)%download_object_ok.
  cbn [store disk].
  assert (written (cwd w) (disk w) [(pathlib.str local_path, data)]
                  (<[t := File data]> fs1)) as Hw.
  { exists fs1, t. by repeat split. }
  exists data. split; [done|]. split; [|split; [done|]].
  - apply (written_last _ _ [] _ _ [] _ Hw).
    intros s' data' Hin. by apply elem_of_nil in Hin.
  - intros p. destruct (written_frame _ _ _ _ p Hw)
      as [(s & d & Hin & Hp)|Hp]; [|by right].
    apply list_elem_of_singleton in Hin. injection Hin as -> ->. by left.
Qed.

(** X8: when [download_object] returns, the whole object has been fetched
    and the file at [local_path] holds exactly its bytes, whatever was there
    before; the store is as before, and every other entry of the disk is
    unchanged or is a new directory. *)
Theorem download_object_writes bucket key (local_path : Path) w w' :
  download_object bucket key local_path w = (Return tt, w') →
  ∃ data,
    object_body (store w) bucket key = Some data
    ∧ os.read_rb (disk w') (cwd w) (pathlib.str local_path) = inr data
    ∧ store w' = store w
    ∧ ∀ p, os.locate (disk w') (cwd w) (pathlib.str local_path) = inr p
           ∨ disk w' !! p = disk w !! p
           ∨ (disk w !! p = None ∧ disk w' !! p = Some Dir).
Proof. apply download_object_result. Qed.

Lemma write_chunks_fails t (chunks : list bytes) e rest w d :
  disk w !! t = Some (File d) →
  write_chunks t (map inr chunks ++ inl e :: rest) w
  = (Raise e, set_disk (<[t := File (d ++ concat chunks)]> (disk w)) w).
Proof.
  revert w d. induction chunks as [|chunk chunks IH]; intros w d Ht; simpl.
  - unfold raise. rewrite app_nil_r, insert_id by done. by destruct w.
  - unfold bind, f_write. rewrite (IH _ (d ++ chunk)).
    + unfold set_disk, os.write; simpl. rewrite Ht.
      by rewrite insert_insert_eq, app_assoc.
    + unfold set_disk, os.write; simpl. rewrite Ht. by rewrite lookup_insert_eq.
Qed.

(** X9: there is no clean-up.  When the directories were made and the file
    opened, and the read of the body fails after some chunks, the error is
    raised and the file stays behind with the chunks written so far. *)
Theorem download_object_partial bucket key (local_path : Path) w
    (chunks : list bytes) e rest fs1 t fs2 :
  Py.startswith key "/" = false →
  s3_get_object (store w) bucket key = inr (map inr chunks ++ inl e :: rest) →
  os.makedirs (disk w) (cwd w) (os.dirname (pathlib.str local_path))
    = (None, fs1) →
  os.open_wb fs1 (cwd w) (pathlib.str local_path) = inr (t, fs2) →
  download_object bucket key local_path w
  = (Raise e,
     World (store w) (calls w ++ [GetObject bucket key; Close])
           (<[t := File (concat chunks)]> fs1) (cwd w)
           (logged w ++ [download_info bucket key local_path;
                         download_failure bucket key e])).
Proof.
  intros Hkey Hget Hdirs Hopen. unfold download_object. rewrite Hkey.
  unfold try_except_finally, bind, logger_info, client_get_object.
  cbn [store add_log]. rewrite Hget.
  unfold os_makedirs, open_wb, logger_exception, raise, client_close.
  unfold add_call, add_log, set_disk. cbn [store calls disk cwd logged].
  rewrite Hdirs. cbn [store calls disk cwd logged]. rewrite Hopen.
  apply open_wb_inr in Hopen as (_ & _ & ->).
  rewrite (write_chunks_fails t chunks e rest _ []);
    [|by cbn; rewrite lookup_insert_eq].
  world_simpl. by rewrite insert_insert_eq.
Qed.

(** The outcome of a [try] whose handler logs and raises again and whose
    [finally] closes the client. *)
Lemma try_log_close {A} (body : M B A) msg w :
  try_except_finally body (λ e, logger_exception msg e ;; raise e)
                     client_close w
  = ((body w).1,
     add_call Close
       (match (body w).1 with
        | Raise e => add_log (LogException msg e) (body w).2
        | Return _ => (body w).2
        end)).
Proof.
  unfold try_except_finally, bind, logger_exception, raise, client_close.
  by destruct (body w) as [[a|e] w1].
Qed.

Lemma only_reads_refl w : only_reads w w.
Proof.
  repeat split; [apply grows_refl|]. exists []. by rewrite app_nil_r.
Qed.

Lemma only_reads_trans w1 w2 w3 :
  only_reads w1 w2 → only_reads w2 w3 → only_reads w1 w3.
Proof.
  intros (Hs1 & Hc1 & Hg1 & cs1 & Hcalls1 & Hr1)
         (Hs2 & Hc2 & Hg2 & cs2 & Hcalls2 & Hr2).
  split; [congruence|]. split; [congruence|].
  split; [by eapply grows_trans|]. exists (cs1 ++ cs2).
  split; [by rewrite Hcalls2, Hcalls1, app_assoc|by apply Forall_app].
Qed.

Lemma write_chunks_any t chunks w d :
  disk w !! t = Some (File d) →
  ∃ d', (write_chunks t chunks w).2
        = set_disk (<[t := File d']> (disk w)) w.
Proof.
  revert w d. induction chunks as [|[e|chunk] chunks IH]; intros w d Ht; simpl.
  - exists d. rewrite insert_id by done. by destruct w.
  - exists d. rewrite insert_id by done. by destruct w.
  - unfold bind, f_write.
    destruct (IH (set_disk (os.write (disk w) t chunk) w) (d ++ chunk))
      as [d' Hd'].
    { unfold set_disk, os.write; simpl. rewrite Ht. by rewrite lookup_insert_eq. }
    exists d'. destruct (write_chunks t chunks _) as [[[]|e] w2]; simpl in *;
      rewrite Hd'; unfold set_disk, os.write; simpl; rewrite Ht;
      by rewrite insert_insert_eq.
Qed.

Lemma download_object_reads bucket key (local_path : Path) w :
  only_reads w (download_object bucket key local_path w).2.
Proof.
  unfold download_object. destruct (Py.startswith key "/").
  { apply only_reads_refl. }
  rewrite try_log_close.
  set (body := (logger_info _ ;; _)).
  assert (store (body w).2 = store w ∧ cwd (body w).2 = cwd w
          ∧ grows (disk w) (disk (body w).2)
          ∧ calls (body w).2 = calls w ++ [GetObject bucket key]) as Hbody.
  { unfold body, bind, logger_info, client_get_object. cbn [store add_log].
    destruct (s3_get_object (store w) bucket key) as [e|chunks].
    { repeat split; apply grows_refl. }
    unfold os_makedirs, open_wb. unfold add_call, add_log, set_disk.
    cbn [store calls disk cwd logged].
    pose proof (makedirs_only_new_dirs (disk w) (cwd w)
                  (os.dirname (pathlib.str local_path))) as Hnew.
    apply only_new_dirs_grows in Hnew.
    destruct (os.makedirs _ _ _) as [[en|] fs1]; simpl in Hnew; [by repeat split|].
    cbn [store calls disk cwd logged].
    destruct (os.open_wb fs1 (cwd w) (pathlib.str local_path))
      as [en|[t fs2]] eqn:Hopen; [by repeat split|].
    apply open_wb_inr in Hopen as (Hloc & Hold & ->).
    match goal with |- context [write_chunks t chunks ?w0] =>
      destruct (write_chunks_any t chunks w0 []) as [d' Hd'];
        [by cbn; rewrite lookup_insert_eq|];
      destruct (write_chunks t chunks w0) as [[[]|e] w2]
    end; simpl in Hd'; subst w2; unfold set_disk; cbn [store calls disk cwd];
      rewrite insert_insert_eq; repeat split;
      (eapply grows_trans; [done|by apply grows_insert_file]). }
  destruct Hbody as (Hstore & Hcwd & Hgrows & Hcalls).
  destruct (body w).1 as [[]|e]; unfold add_call, add_log;
    cbn [store calls disk cwd logged];
    (split; [done|]; split; [done|]; split; [done|];
     exists [GetObject bucket key; Close]; rewrite Hcalls, <- app_assoc;
     split; [done|by repeat constructor]).
Qed.

(** X10: whatever its outcome, [download_object] only reads from the
    backend and only adds to the disk: the store is unchanged, the requests
    are the one [get_object] and the [close], and no local entry is removed
    or replaced by an entry of another kind. *)
Theorem download_object_only_reads bucket key (local_path : Path) w :
  only_reads w (download_object bucket key local_path w).2.
Proof. apply download_object_reads. Qed.

(** *** Folders: where the loops stop and what they leave alone *)

Lemma for_each_stops {A} (l1 l2 : list A) (x : A) (body : A → M B unit)
    w w1 w2 e :
  for_each l1 body w = (Return tt, w1) →
  body x w1 = (Raise e, w2) →
  for_each (l1 ++ x :: l2) body w = (Raise e, w2).
Proof.
  intros Hbefore Hx. rewrite (for_each_app _ _ _ _ _ Hbefore). simpl.
  unfold bind. by rewrite Hx.
Qed.

(** X11: [download_folder] stops at the first key whose step fails, with
    that step's error and in the world that step left: the keys before it
    have been downloaded and stay on the disk, and nothing is requested for
    the keys after it. *)
Theorem download_folder_stops bucket prefix (local_path : Path)
    (pages : list page) before key after w w1 w2 e :
  Py.startswith prefix "/" = false →
  paginate (store w) bucket prefix = map inr pages →
  filter (λ k, negb (is_folder_marker k)) (all_keys pages)
    = before ++ key :: after →
  for_each before (download_folder_body bucket prefix local_path)
    (add_calls (GetPaginator "list_objects_v2"
                  :: replicate (length pages) (ListObjectsV2 bucket prefix)
                  ++ [Close]) w)
    = (Return tt, w1) →
  download_folder_body bucket prefix local_path key w1 = (Raise e, w2) →
  download_folder bucket prefix local_path w = (Raise e, w2)
  ∧ only_reads w1 w2.
Proof.
  intros Hprefix Hpages Hsplit Hbefore Hkey. split.
  - unfold download_folder. rewrite Hprefix. unfold bind at 1.
    rewrite (list_object_keys_run bucket prefix true pages w Hprefix Hpages).
    change (filter (λ x, negb (Py.endswith x "/")) (all_keys pages))
      with (filter (λ k, negb (is_folder_marker k)) (all_keys pages)).
    rewrite Hsplit. by apply (for_each_stops _ _ _ _ _ w1).
  - revert Hkey. unfold download_folder_body.
    destruct (Py.endswith key "/"); [done|].
    unfold bind, Path_relative_to.
    destruct (pathlib.relative_to _ _) as [rel|].
    + unfold ret. intros Hdl.
      pose proof (download_object_reads bucket key
                    (pathlib.truediv local_path rel) w1) as Hreads.
      by rewrite Hdl in Hreads.
    + unfold raise. intros [= _ <-]. apply only_reads_refl.
Qed.

Lemma extend_from_pages_any bucket prefix pages acc w :
  ∃ n, (extend_from_pages bucket prefix pages acc w).2
       = add_calls (replicate n (ListObjectsV2 bucket prefix)) w.
Proof.
  revert acc w. induction pages as [|[e|pg] pages IH]; intros acc w; simpl.
  - exists 0. by rewrite add_calls_nil.
  - by exists 1.
  - unfold bind, next_page at 1.
    destruct (IH (acc ++ map Key (default [] (Contents pg)))
                 (add_call (ListObjectsV2 bucket prefix) w)) as [n Hn].
    exists (S n). rewrite Hn.
    by rewrite add_call_add_calls, add_calls_add_calls.
Qed.

Lemma list_object_keys_any bucket prefix flag w :
  Py.startswith prefix "/" = false →
  ∃ n logs,
    (list_object_keys bucket prefix flag w).2
    = World (store w)
        (calls w ++ GetPaginator "list_objects_v2"
           :: replicate n (ListObjectsV2 bucket prefix) ++ [Close])
        (disk w) (cwd w) (logged w ++ logs).
Proof.
  intros Hprefix. unfold list_object_keys. rewrite Hprefix.
  unfold bind at 1. rewrite try_log_close.
  set (body := (client_get_paginator _ ;; _)).
  assert (∃ n, (body w).2
               = add_calls (GetPaginator "list_objects_v2"
                              :: replicate n (ListObjectsV2 bucket prefix)) w)
    as [n Hn].
  { unfold body, bind at 1, client_get_paginator.
    unfold bind at 1, paginator_paginate. cbn [store add_call].
    destruct (extend_from_pages_any bucket prefix
                (paginate (store w) bucket prefix) []
                (add_call (GetPaginator "list_objects_v2") w)) as [n Hn].
    exists n. rewrite Hn. by rewrite add_call_add_calls, add_calls_add_calls. }
  exists n. destruct (body w).1 as [keys|e]; unfold ret; rewrite Hn.
  - exists []. world_simpl. by rewrite app_nil_r.
  - eexists [_]. by world_simpl.
Qed.

Lemma list_object_keys_only_reads bucket prefix flag w :
  only_reads w (list_object_keys bucket prefix flag w).2.
Proof.
  destruct (Py.startswith prefix "/") eqn:Hprefix.
  { unfold list_object_keys. rewrite Hprefix. apply only_reads_refl. }
  destruct (list_object_keys_any bucket prefix flag w Hprefix)
    as (n & logs & ->).
  repeat split; [apply grows_refl|]. eexists. split; [done|].
  constructor; [done|]. apply Forall_app. split; [|by repeat constructor].
  by apply Forall_replicate.
Qed.

Lemma for_each_only_reads {A} (l : list A) (body : A → M B unit) w :
  (∀ x w0, only_reads w0 (body x w0).2) →
  only_reads w (for_each l body w).2.
Proof.
  intros Hbody. revert w. induction l as [|x l IH]; intros w; simpl.
  - apply only_reads_refl.
  - unfold bind. pose proof (Hbody x w) as Hx.
    destruct (body x w) as [[[]|e] w1]; simpl in *; [|done].
    eapply only_reads_trans; [done|apply IH].
Qed.

(** X12: whatever its outcome, [download_folder] only reads from the
    backend and only adds to the disk: the store is unchanged, no copy,
    delete or upload is requested, and no local entry is removed or
    replaced by an entry of another kind. *)
Theorem download_folder_only_reads bucket prefix (local_path : Path) w :
  only_reads w (download_folder bucket prefix local_path w).2.
Proof.
  unfold download_folder. destruct (Py.startswith prefix "/").
  { apply only_reads_refl. }
  unfold bind.
  pose proof (list_object_keys_only_reads bucket prefix true w) as Hlist.
  destruct (list_object_keys bucket prefix true w) as [[keys|e] w1];
    simpl in *; [|done].
  eapply only_reads_trans; [done|]. apply for_each_only_reads.
  intros key w0. unfold download_folder_body.
  destruct (Py.endswith key "/"); [apply only_reads_refl|].
  unfold bind, Path_relative_to.
  destruct (pathlib.relative_to _ _) as [rel|]; [|apply only_reads_refl].
  apply download_object_reads.
Qed.

(** X13: when [local_path] does not name a directory (it is missing, or is
    a file), [put_folder] finds nothing and returns without a request or a
    log record. *)
Theorem put_folder_not_a_directory bucket prefix (local_path : Path) w :
  Py.startswith prefix "/" = false →
  os.stat (disk w) (cwd w) (pathlib.str local_path) ≠ inr Dir →
  put_folder bucket prefix local_path w = (Return tt, w).
Proof.
  intros Hprefix Hstat. unfold put_folder. rewrite Hprefix.
  unfold bind, Path_rglob, os.rglob.
  by destruct (os.stat _ _ _) as [en|[]].
Qed.

Lemma only_uploads_refl bucket w : only_uploads bucket w w.
Proof. repeat split. exists []. by rewrite app_nil_r. Qed.

Lemma only_uploads_trans bucket w1 w2 w3 :
  only_uploads bucket w1 w2 → only_uploads bucket w2 w3 →
  only_uploads bucket w1 w3.
Proof.
  intros (Hd1 & Hc1 & cs1 & Hcalls1 & Hu1) (Hd2 & Hc2 & cs2 & Hcalls2 & Hu2).
  split; [congruence|]. split; [congruence|]. exists (cs1 ++ cs2).
  split; [by rewrite Hcalls2, Hcalls1, app_assoc|by apply Forall_app].
Qed.

Lemma put_object_only_uploads bucket key (local_path : Path) w :
  only_uploads bucket w (put_object bucket key local_path w).2.
Proof.
  destruct (Py.startswith key "/") eqn:Hkey.
  { unfold put_object. rewrite Hkey. apply only_uploads_refl. }
  destruct (os.read_rb (disk w) (cwd w) (pathlib.str local_path))
    as [code|data] eqn:Hread.
  - rewrite (put_object_read_fails _ _ _ _ code) by done.
    repeat split. exists [Close]. split; [done|by repeat constructor].
  - rewrite (put_object_outcome _ _ _ _ data) by done.
    repeat split. eexists. split; [done|by repeat constructor].
Qed.

Lemma for_each_only_uploads {A} bucket (l : list A) (body : A → M B unit) w :
  (∀ x w0, only_uploads bucket w0 (body x w0).2) →
  only_uploads bucket w (for_each l body w).2.
Proof.
  intros Hbody. revert w. induction l as [|x l IH]; intros w; simpl.
  - apply only_uploads_refl.
  - unfold bind. pose proof (Hbody x w) as Hx.
    destruct (body x w) as [[[]|e] w1]; simpl in *; [|done].
    eapply only_uploads_trans; [done|apply IH].
Qed.

(** X14: whatever its outcome, [put_folder] leaves the disk as it was and
    asks the backend for nothing but uploads into [bucket_name] (each
    followed by the [close] of [put_object]): it lists nothing, fetches
    nothing and deletes nothing. *)
Theorem put_folder_only_uploads bucket prefix (local_path : Path) w :
  only_uploads bucket w (put_folder bucket prefix local_path w).2.
Proof.
  unfold put_folder. destruct (Py.startswith prefix "/").
  { apply only_uploads_refl. }
  unfold bind at 1, Path_rglob. apply for_each_only_uploads.
  intros p w0. unfold put_folder_body, bind at 1, Path_is_file.
  destruct (os.is_file _ _ _); cbn [negb]; [|apply only_uploads_refl].
  unfold bind, Path_relative_to.
  destruct (pathlib.relative_to _ _) as [rel|]; [|apply only_uploads_refl].
  apply put_object_only_uploads.
Qed.

(** *** Upload, then download *)

(** X15: a file uploaded by [put_object] to a backend that serves what it
    was given, and then downloaded by [download_object] under the same
    bucket and key, arrives with the bytes of the source file. *)
Theorem put_then_download bucket key (source target : Path) w w1 w2 data :
  (∀ (b : B) body, object_body (s3_put_object b bucket key body).2 bucket key
                   = Some body) →
  os.read_rb (disk w) (cwd w) (pathlib.str source) = inr data →
  put_object bucket key source w = (Return tt, w1) →
  download_object bucket key target w1 = (Return tt, w2) →
  os.read_rb (disk w2) (cwd w) (pathlib.str target) = inr data.
Proof.
  intros Hserves Hread Hput Hget.
  assert (Py.startswith key "/" = false) as Hkey.
  { unfold put_object in Hput. by destruct (Py.startswith key "/"). }
  rewrite (put_object_outcome _ _ _ _ data) in Hput by done.
  injection Hput as _ <-.
  apply download_object_result in Hget as (data' & Hbody & Hfile & _).
  cbn [store cwd] in *. rewrite Hserves in Hbody. by injection Hbody as <-.
Qed.

(** *** A key that is the prefix itself *)

(** X16: when the prefix names an object, so that the one key listed is
    the prefix itself as a path, [download_folder] is, after the listing,
    the download of that key to [local_path] itself: the relative path is
    empty and the object is stored in the file [local_path], not in a file
    inside it. *)
Theorem download_folder_prefix_itself bucket prefix (local_path : Path)
    (pages : list page) key w :
  Py.startswith prefix "/" = false →
  paginate (store w) bucket prefix = map inr pages →
  filter (λ k, negb (is_folder_marker k)) (all_keys pages) = [key] →
  pathlib.of_str key = pathlib.of_str prefix →
  destination prefix local_path key = Some local_path
  ∧ download_folder bucket prefix local_path w
    = download_object bucket key local_path
        (add_calls (GetPaginator "list_objects_v2"
                      :: replicate (length pages) (ListObjectsV2 bucket prefix)
                      ++ [Close]) w).
Proof.
  intros Hprefix Hpages Hkeys Heq.
  assert (is_folder_marker key = false) as Hmarker.
  { assert (key ∈ filter (λ k, negb (is_folder_marker k)) (all_keys pages))
      as [Hm _]%list_elem_of_filter by (rewrite Hkeys; by left).
    by destruct (is_folder_marker key). }
  assert (pathlib.truediv local_path (mkPath "" []) = local_path) as Hsame.
  { unfold pathlib.truediv. cbn. rewrite app_nil_r. by destruct local_path. }
  pose proof (λ w0, download_folder_body_under bucket prefix local_path key []
                      w0 Hmarker (f_equal pathlib.root Heq)
                      (eq_trans (f_equal pathlib.tail Heq)
                                (eq_sym (app_nil_r _)))) as Hbody.
  rewrite Hsame in Hbody. split; [by destruct (Hbody w)|].
  unfold download_folder. rewrite Hprefix. unfold bind at 1.
  rewrite (list_object_keys_run bucket prefix true pages w Hprefix Hpages).
  change (filter (λ x, negb (Py.endswith x "/")) (all_keys pages))
    with (filter (λ k, negb (is_folder_marker k)) (all_keys pages)).
  rewrite Hkeys. cbn [for_each]. rewrite bind_ret_tt.
  by destruct (Hbody (add_calls
                        (GetPaginator "list_objects_v2"
                           :: replicate (length pages) (ListObjectsV2 bucket prefix)
                           ++ [Close]) w)).
Qed.

(** *** The client is closed *)

Lemma download_object_calls bucket key (local_path : Path) w :
  Py.startswith key "/" = false →
  calls (download_object bucket key local_path w).2
  = calls w ++ [GetObject bucket key; Close].
Proof.
  intros Hkey. unfold download_object. rewrite Hkey. rewrite try_log_close.
  set (body := (logger_info _ ;; _)).
  assert (calls (body w).2 = calls w ++ [GetObject bucket key]) as Hbody.
  { unfold body, bind, logger_info, client_get_object. cbn [store add_log].
    destruct (s3_get_object (store w) bucket key) as [e|chunks]; [done|].
    unfold os_makedirs, open_wb. unfold add_call, add_log, set_disk.
    cbn [store calls disk cwd logged].
    destruct (os.makedirs _ _ _) as [[en|] fs1]; [done|].
    cbn [store calls disk cwd logged].
    destruct (os.open_wb fs1 (cwd w) (pathlib.str local_path))
      as [en|[t fs2]] eqn:Hopen; [done|].
    apply open_wb_inr in Hopen as (_ & _ & ->).
    match goal with |- context [write_chunks t chunks ?w0] =>
      destruct (write_chunks_any t chunks w0 []) as [d' Hd'];
        [by cbn; rewrite lookup_insert_eq|];
      destruct (write_chunks t chunks w0) as [[[]|e] w2]
    end; simpl in Hd'; by subst w2. }
  destruct (body w).1 as [[]|e]; unfold add_call, add_log;
    cbn [calls]; by rewrite Hbody, <- app_assoc.
Qed.

(** X17: each function that talks to the backend closes the client last,
    whether its request succeeded or not: once the keys have passed the
    check, the last recorded call of [list_object_keys], [copy_object],
    [delete_object], [download_object] and [put_object] is [close]. *)
Theorem client_closed_last (bucket bucket' key key' : string) (flag : bool)
    (local_path : Path) w :
  Py.startswith key "/" = false →
  Py.startswith key' "/" = false →
  last (calls (list_object_keys bucket key flag w).2) = Some Close
  ∧ last (calls (copy_object bucket key bucket' key' w).2) = Some Close
  ∧ last (calls (delete_object bucket key w).2) = Some Close
  ∧ last (calls (download_object bucket key local_path w).2) = Some Close
  ∧ last (calls (put_object bucket key local_path w).2) = Some Close.
Proof.
  intros Hkey Hkey'. repeat split.
  - destruct (list_object_keys_any bucket key flag w Hkey) as (n & logs & ->).
    cbn [calls]. by rewrite app_comm_cons, !app_assoc, last_snoc.
  - rewrite copy_object_outcome by done. cbv zeta. cbn [snd calls].
    by rewrite last_app.
  - rewrite delete_object_outcome by done. cbv zeta. cbn [snd calls].
    by rewrite last_app.
  - rewrite download_object_calls by done. by rewrite last_app.
  - destruct (os.read_rb (disk w) (cwd w) (pathlib.str local_path))
      as [code|data] eqn:Hread.
    + rewrite (put_object_read_fails _ _ _ _ code) by done. cbn [snd calls].
      by rewrite last_snoc.
    + rewrite (put_object_outcome _ _ _ _ data) by done. cbv zeta.
      cbn [snd calls]. by rewrite last_app.
Qed.

(** X18: [put_folder] stops at the first entry, in the order in which
    [rglob] yields them, whose step fails, with that step's error and in
    the world that step left: the files before it have been uploaded and
    stay uploaded, and nothing is requested for the entries after it.  This
    holds whatever the order in which the host lists a directory. *)
Theorem put_folder_stops bucket prefix (local_path : Path)
    before entry after w w1 w2 e :
  Py.startswith prefix "/" = false →
  os.rglob (disk w) (cwd w) local_path = before ++ entry :: after →
  for_each before (put_folder_body bucket prefix local_path) w
    = (Return tt, w1) →
  put_folder_body bucket prefix local_path entry w1 = (Raise e, w2) →
  put_folder bucket prefix local_path w = (Raise e, w2)
  ∧ only_uploads bucket w w1 ∧ only_uploads bucket w1 w2.
Proof.
  intros Hprefix Hfound Hbefore Hentry.
  assert (∀ p w0, only_uploads bucket w0
                    (put_folder_body bucket prefix local_path p w0).2) as Hbody.
  { intros p w0. unfold put_folder_body, bind at 1, Path_is_file.
    destruct (os.is_file _ _ _); cbn [negb]; [|apply only_uploads_refl].
    unfold bind, Path_relative_to.
    destruct (pathlib.relative_to _ _) as [rel|]; [|apply only_uploads_refl].
    apply put_object_only_uploads. }
  split; [|split].
  - unfold put_folder. rewrite Hprefix. unfold bind at 1, Path_rglob.
    rewrite Hfound. by apply (for_each_stops _ _ _ _ _ w1).
  - pose proof (for_each_only_uploads bucket before _ w Hbody) as Hup.
    by rewrite Hbefore in Hup.
  - pose proof (Hbody entry w1) as Hup. by rewrite Hentry in Hup.
Qed.

End Properties.

(** The examples run on a host that lists in the order of the map. *)
#[export] Existing Instance in_map_order.

(** ** Examples *)

Lemma leading_slash_rejected_witness :
  Py.startswith "/data" "/" = true
  ∧ calls (download_folder "bucket" "/data" (pathlib.of_str "out")
             (fresh quiet)).2 = [].
Proof.
  split; [reflexivity|].
  pose proof (leading_slash_rejected "/data" "bucket" "bucket" "k" true
                (pathlib.of_str "out") (fresh quiet) eq_refl) as Hall.
  destruct Hall as (_ & _ & _ & _ & _ & _ & _ & -> & _).
  reflexivity.
Defined.

(** Three pages, the second one holding a folder marker. *)
Lemma list_object_keys_all_pages_witness :
  ∃ w',
    list_object_keys "bucket" "logs/" true (fresh paged)
    = (Return ["logs/a"; "logs/b"; "logs/2024/c"; "logs/d"], w')
    ∧ calls w' = [GetPaginator "list_objects_v2";
                  ListObjectsV2 "bucket" "logs/"; ListObjectsV2 "bucket" "logs/";
                  ListObjectsV2 "bucket" "logs/"; Close].
Proof.
  destruct (list_object_keys_all_pages "bucket" "logs/" true three_pages
              (fresh paged)) as (w' & Hrun & Hcalls & _); [reflexivity..|].
  exists w'. split; [exact Hrun|exact Hcalls].
Defined.

(** With the default [exclude_folders=True] the result is not the list of
    all keys of the pages: the folder marker is missing. *)
Lemma list_object_keys_drops_markers :
  (list_object_keys "bucket" "logs/" true (fresh paged)).1
    = Return ["logs/a"; "logs/b"; "logs/2024/c"; "logs/d"]
  ∧ all_keys three_pages = ["logs/a"; "logs/b"; "logs/2024/"; "logs/2024/c"; "logs/d"]
  ∧ (list_object_keys "bucket" "logs/" true (fresh paged)).1
      ≠ Return (all_keys three_pages).
Proof. split; [reflexivity|]. split; [reflexivity|]. discriminate. Qed.

Lemma exclude_folders_filters_witness :
  ∃ w',
    list_object_keys "bucket" "logs/" false (fresh paged)
    = (Return ["logs/a"; "logs/b"; "logs/2024/"; "logs/2024/c"; "logs/d"], w')
    ∧ list_object_keys "bucket" "logs/" true (fresh paged)
      = (Return ["logs/a"; "logs/b"; "logs/2024/c"; "logs/d"], w').
Proof.
  destruct (exclude_folders_filters "bucket" "logs/" three_pages (fresh paged))
    as (w' & Hall & Hfiles & _); [reflexivity..|].
  exists w'. split; [exact Hall|exact Hfiles].
Defined.

Lemma move_object_no_rollback_witness :
  (move_object "src" "a.txt" "dest" "b.txt" (fresh keeps)).1
    = Raise (ClientError "AccessDenied")
  ∧ calls (move_object "src" "a.txt" "dest" "b.txt" (fresh keeps)).2
    = [CopyObject "dest" "b.txt" "src" "a.txt"; Close;
       DeleteObject "src" "a.txt"; Close].
Proof.
  destruct (move_object_no_rollback "src" "a.txt" "dest" "b.txt" (fresh keeps)
              keeps keeps (ClientError "AccessDenied")) as [_ ->];
    [reflexivity..|].
  split; reflexivity.
Defined.

Lemma download_object_get_fails_witness :
  (download_object "bucket" "missing.txt" (pathlib.of_str "out/missing.txt")
     (fresh quiet)).1 = Raise (ClientError "NoSuchKey")
  ∧ disk (download_object "bucket" "missing.txt"
            (pathlib.of_str "out/missing.txt") (fresh quiet)).2
    = disk (fresh quiet).
Proof.
  rewrite (download_object_get_fails "bucket" "missing.txt"
             (pathlib.of_str "out/missing.txt") (fresh quiet)
             (ClientError "NoSuchKey")) by reflexivity.
  split; reflexivity.
Defined.

(** The folder [data/] of the bucket, downloaded to [out]. *)
Lemma download_folder_downloads_witness :
  ∃ w',
    download_folder "bucket" "data/" (pathlib.of_str "out")
      (fresh (serving ["data/a.txt"; "data/sub/b.txt"; "data/"]))
    = (Return tt, w')
    ∧ calls w' = [GetPaginator "list_objects_v2"; ListObjectsV2 "bucket" "data/";
                  Close; GetObject "bucket" "data/a.txt"; Close;
                  GetObject "bucket" "data/sub/b.txt"; Close]
    ∧ os.read_rb (disk w') ["home"; "user"] "out/sub/b.txt"
      = inr [Byte.x68; Byte.x69; Byte.x21].
Proof.
  destruct (download_folder_downloads "bucket" "data/" (pathlib.of_str "out")
              [keys_page ["data/a.txt"; "data/sub/b.txt"; "data/"]]
              (fresh (serving ["data/a.txt"; "data/sub/b.txt"; "data/"])))
    as (_ & _ & Hreturns & Hdone).
  - reflexivity.
  - reflexivity.
  - intros key Hin. vm_compute in Hin.
    repeat (apply elem_of_cons in Hin as [->|Hin]);
      [| |by apply elem_of_nil in Hin];
      (split; [reflexivity|]); eexists; vm_compute; reflexivity.
  - destruct Hreturns as [w' Hrun].
    + apply (bool_decide_unpack _ (dec := plain_path_dec _)). vm_compute. exact I.
    + reflexivity.
    + apply (bool_decide_unpack _). vm_compute. exact I.
    + vm_compute. reflexivity.
    + exists w'. split; [exact Hrun|].
      destruct (Hdone w' Hrun) as (Hcalls & _ & Hcontent & _).
      split; [exact Hcalls|].
      apply (Hcontent ["data/a.txt"] "data/sub/b.txt" []
               (pathlib.of_str "out/sub/b.txt")); [reflexivity..|].
      intros key' dest' Hin. by apply elem_of_nil in Hin.
Defined.

Example download_folder_example :
  disk (download_folder "bucket" "data/" (pathlib.of_str "out")
          (fresh (serving ["data/a.txt"; "data/sub/b.txt"; "data/"]))).2
  = {[ ["home"] := Dir; ["home"; "user"] := Dir;
       ["home"; "user"; "out"] := Dir;
       ["home"; "user"; "out"; "a.txt"] := File [Byte.x68; Byte.x69; Byte.x21];
       ["home"; "user"; "out"; "sub"] := Dir;
       ["home"; "user"; "out"; "sub"; "b.txt"]
         := File [Byte.x68; Byte.x69; Byte.x21] ]}.
Proof. vm_compute. reflexivity. Qed.

(** A key that begins with the prefix as a string but is not under it as a
    path is listed and not downloaded: the operation stops with a
    ValueError. *)
Lemma download_folder_sibling_key :
  Py.startswith "data" "/" = false
  ∧ "data.csv" ∈ filter (λ k, negb (is_folder_marker k)) ["data/a.txt"; "data.csv"]
  ∧ (download_folder "bucket" "data" (pathlib.of_str "out")
       (fresh (serving ["data/a.txt"; "data.csv"]))).1
    = Raise (ValueError "'data.csv' is not in the subpath of 'data'")
  ∧ calls (download_folder "bucket" "data" (pathlib.of_str "out")
             (fresh (serving ["data/a.txt"; "data.csv"]))).2
    = [GetPaginator "list_objects_v2"; ListObjectsV2 "bucket" "data"; Close;
       GetObject "bucket" "data/a.txt"; Close].
Proof.
  split; [reflexivity|]. split; [|split; vm_compute; reflexivity].
  vm_compute. by repeat constructor.
Qed.

Lemma relative_path_failure_witness :
  is_folder_marker "data2/b.txt" = false
  ∧ ∀ w : world stub,
      download_folder_body "bucket" "data" (pathlib.of_str "out") "data2/b.txt" w
      = (Raise (ValueError (pathlib.not_in_subpath (pathlib.of_str "data2/b.txt")
                               (pathlib.of_str "data"))), w).
Proof.
  split; [reflexivity|].
  destruct (relative_path_failure (B := stub) "bucket" "data"
              (pathlib.of_str "out") "data2/b.txt" eq_refl) as [_ Hfails].
  apply Hfails. intros [_ [rest Hrest]]. vm_compute in Hrest. discriminate Hrest.
Defined.

(** The key begins with the prefix, and its relative path is refused. *)
Lemma relative_path_string_prefix :
  Py.startswith "data2/b.txt" "data" = true
  ∧ (download_folder "bucket" "data" (pathlib.of_str "out")
       (fresh (serving ["data2/b.txt"]))).1
    = Raise (ValueError "'data2/b.txt' is not in the subpath of 'data'").
Proof. split; vm_compute; reflexivity. Qed.

(** C7: a destination that is a bare file name: the object is fetched, then
    [os.makedirs("")] raises FileNotFoundError and no file is written. *)
Theorem download_object_bare_filename_fails :
  download_object "bucket" "reports/q1.csv" (pathlib.of_str "q1.csv")
    (fresh (serving ["reports/q1.csv"]))
  = (Raise (OSError ENOENT ""),
     World (serving ["reports/q1.csv"])
           [GetObject "bucket" "reports/q1.csv"; Close]
           (disk (fresh (serving ["reports/q1.csv"]))) ["home"; "user"]
           [download_info "bucket" "reports/q1.csv" (pathlib.of_str "q1.csv");
            download_failure "bucket" "reports/q1.csv" (OSError ENOENT "")]).
Proof.
  by rewrite (download_object_bare_filename "bucket" "reports/q1.csv"
                (pathlib.of_str "q1.csv") (fresh (serving ["reports/q1.csv"]))
                [inr [Byte.x68; Byte.x69]; inr [Byte.x21]]).
Qed.

(** The same download to [out/q1.csv] succeeds. *)
Example download_object_with_directory :
  (download_object "bucket" "reports/q1.csv" (pathlib.of_str "out/q1.csv")
     (fresh (serving ["reports/q1.csv"]))).1 = Return tt
  ∧ os.read_rb
      (disk (download_object "bucket" "reports/q1.csv"
               (pathlib.of_str "out/q1.csv")
               (fresh (serving ["reports/q1.csv"]))).2)
      ["home"; "user"] "out/q1.csv"
    = inr [Byte.x68; Byte.x69; Byte.x21].
Proof. split; vm_compute; reflexivity. Qed.

(** The tree [root/a.txt], [root/sub/b.txt] uploaded under [up]. *)
Lemma put_folder_uploads_witness :
  ∃ w',
    put_folder "bucket" "up" (pathlib.of_str "root") at_tree = (Return tt, w')
    ∧ calls w' = [PutObject "bucket" "up/a.txt" [Byte.x61]; Close;
                  PutObject "bucket" "up/sub/b.txt" [Byte.x62]; Close].
Proof.
  edestruct (put_folder_uploads "bucket" "up" (pathlib.of_str "root")
               ["home"; "user"; "root"] (λ b, stub_put b = None) at_tree)
    as (w' & Hrun & Hcalls & _).
  - reflexivity.
  - apply (bool_decide_unpack _ (dec := plain_path_dec _)). vm_compute. exact I.
  - apply (bool_decide_unpack _ (dec := map_Forall_dec _ _)). vm_compute. exact I.
  - reflexivity.
  - reflexivity.
  - reflexivity.
  - intros b key data Hb. split; exact Hb.
  - exists w'. split; [exact Hrun|]. rewrite Hcalls. vm_compute. reflexivity.
Defined.

(** [rglob] on the tree: the entries of [root], then those of its
    sub-directories; on another host the entries come in another order, and
    still those of [root] first. *)
Example rglob_example :
  os.rglob tree ["home"; "user"] (pathlib.of_str "root")
  = [mkPath "" ["root"; "a.txt"]; mkPath "" ["root"; "run"];
     mkPath "" ["root"; "sub"]; mkPath "" ["root"; "run"; "agent.sock"];
     mkPath "" ["root"; "sub"; "b.txt"]]
  ∧ @os.rglob in_reverse_order tree ["home"; "user"] (pathlib.of_str "root")
    = [mkPath "" ["root"; "sub"]; mkPath "" ["root"; "run"];
       mkPath "" ["root"; "a.txt"]; mkPath "" ["root"; "run"; "agent.sock"];
       mkPath "" ["root"; "sub"; "b.txt"]]
  ∧ calls (@put_folder stub _ in_reverse_order "bucket" "up"
             (pathlib.of_str "root") at_tree).2
    = [PutObject "bucket" "up/a.txt" [Byte.x61]; Close;
       PutObject "bucket" "up/sub/b.txt" [Byte.x62]; Close].
Proof. repeat split; vm_compute; reflexivity. Qed.

(** ** Further examples *)

Lemma copy_object_run_witness :
  copy_object "src" "a.txt" "dest" "b.txt" one_object
  = (Return tt,
     World (Memory {[ ("src", "a.txt") := [Byte.x61];
                      ("dest", "b.txt") := [Byte.x61] ]})
           [CopyObject "dest" "b.txt" "src" "a.txt"; Close]
           (disk one_object) ["home"; "user"] []).
Proof.
  rewrite (copy_object_run "src" "a.txt" "dest" "b.txt" one_object)
    by reflexivity.
  vm_compute. reflexivity.
Defined.

Lemma delete_object_run_witness :
  delete_object "src" "a.txt" one_object
  = (Return tt,
     World (Memory ∅) [DeleteObject "src" "a.txt"; Close]
           (disk one_object) ["home"; "user"] []).
Proof.
  rewrite (delete_object_run "src" "a.txt" one_object) by reflexivity.
  vm_compute. reflexivity.
Defined.

Lemma move_object_copy_fails_witness :
  calls (move_object "src" "a.txt" "dest" "b.txt" (fresh refuses_copy)).2
  = [CopyObject "dest" "b.txt" "src" "a.txt"; Close].
Proof.
  rewrite (move_object_copy_fails "src" "a.txt" "dest" "b.txt"
             (fresh refuses_copy) refuses_copy (ClientError "NoSuchKey"))
    by reflexivity.
  reflexivity.
Defined.

Lemma move_object_succeeds_witness :
  objects (store (move_object "src" "a.txt" "dest" "b.txt" one_object).2)
  = {[ ("dest", "b.txt") := [Byte.x61] ]}.
Proof.
  rewrite (move_object_succeeds "src" "a.txt" "dest" "b.txt" one_object
             (Memory {[ ("src", "a.txt") := [Byte.x61];
                        ("dest", "b.txt") := [Byte.x61] ]})
             (Memory {[ ("dest", "b.txt") := [Byte.x61] ]}))
    by (vm_compute; reflexivity).
  reflexivity.
Defined.

Lemma list_object_keys_page_fails_witness :
  (list_object_keys "bucket" "logs/" true (fresh breaks_on_second_page)).1
    = Raise (ClientError "SlowDown")
  ∧ calls (list_object_keys "bucket" "logs/" true
             (fresh breaks_on_second_page)).2
    = [GetPaginator "list_objects_v2"; ListObjectsV2 "bucket" "logs/";
       ListObjectsV2 "bucket" "logs/"; Close].
Proof.
  rewrite (list_object_keys_page_fails "bucket" "logs/" true
             [keys_page ["logs/a"]] (ClientError "SlowDown")
             [inr (keys_page ["logs/b"])] (fresh breaks_on_second_page))
    by reflexivity.
  split; reflexivity.
Defined.

Lemma put_object_unreadable_witness :
  put_object "bucket" "a.txt" (pathlib.of_str "missing.txt") (fresh quiet)
  = (Raise (OSError ENOENT "missing.txt"),
     World quiet [Close] (disk (fresh quiet)) ["home"; "user"]
           [LogException "Failed to upload object 'bucket/a.txt':"
                         (OSError ENOENT "missing.txt")]).
Proof.
  rewrite (put_object_unreadable "bucket" "a.txt" (pathlib.of_str "missing.txt")
             (fresh quiet) ENOENT) by reflexivity.
  reflexivity.
Defined.

Lemma put_object_run_witness :
  calls (put_object "bucket" "up/a.txt" (pathlib.of_str "root/a.txt")
           at_tree).2
  = [PutObject "bucket" "up/a.txt" [Byte.x61]; Close].
Proof.
  rewrite (put_object_run "bucket" "up/a.txt" (pathlib.of_str "root/a.txt")
             at_tree [Byte.x61]) by reflexivity.
  reflexivity.
Defined.

Lemma download_object_writes_witness :
  ∃ w',
    download_object "bucket" "reports/q1.csv" (pathlib.of_str "out/q1.csv")
      (fresh (serving ["reports/q1.csv"])) = (Return tt, w')
    ∧ os.read_rb (disk w') ["home"; "user"] "out/q1.csv"
      = inr [Byte.x68; Byte.x69; Byte.x21].
Proof.
  eexists. split; [vm_compute; reflexivity|].
  edestruct (download_object_writes "bucket" "reports/q1.csv"
               (pathlib.of_str "out/q1.csv")
               (fresh (serving ["reports/q1.csv"])))
    as (data & Hbody & Hfile & _); [vm_compute; reflexivity|].
  vm_compute in Hbody. injection Hbody as <-. exact Hfile.
Defined.

Lemma download_object_partial_witness :
  (download_object "bucket" "k" (pathlib.of_str "out/k")
     (fresh breaks_in_body)).1 = Raise (ClientError "IncompleteRead")
  ∧ disk (download_object "bucket" "k" (pathlib.of_str "out/k")
            (fresh breaks_in_body)).2
    = {[ ["home"] := Dir; ["home"; "user"] := Dir;
         ["home"; "user"; "out"] := Dir;
         ["home"; "user"; "out"; "k"] := File [Byte.x68; Byte.x69] ]}.
Proof.
  rewrite (download_object_partial "bucket" "k" (pathlib.of_str "out/k")
             (fresh breaks_in_body) [[Byte.x68; Byte.x69]]
             (ClientError "IncompleteRead") [inr [Byte.x21]]
             {[ ["home"] := Dir; ["home"; "user"] := Dir;
                ["home"; "user"; "out"] := Dir ]}
             ["home"; "user"; "out"; "k"]
             {[ ["home"] := Dir; ["home"; "user"] := Dir;
                ["home"; "user"; "out"] := Dir;
                ["home"; "user"; "out"; "k"] := File [] ]})
    by (vm_compute; reflexivity).
  split; vm_compute; reflexivity.
Defined.

Lemma download_folder_stops_witness :
  (download_folder "bucket" "data" (pathlib.of_str "out")
     (fresh (serving ["data/a.txt"; "data.csv"; "data/z.txt"]))).1
    = Raise (ValueError "'data.csv' is not in the subpath of 'data'")
  ∧ calls (download_folder "bucket" "data" (pathlib.of_str "out")
             (fresh (serving ["data/a.txt"; "data.csv"; "data/z.txt"]))).2
    = [GetPaginator "list_objects_v2"; ListObjectsV2 "bucket" "data"; Close;
       GetObject "bucket" "data/a.txt"; Close].
Proof.
  edestruct (download_folder_stops "bucket" "data" (pathlib.of_str "out")
               [keys_page ["data/a.txt"; "data.csv"; "data/z.txt"]]
               ["data/a.txt"] "data.csv" ["data/z.txt"]
               (fresh (serving ["data/a.txt"; "data.csv"; "data/z.txt"])))
    as [-> _].
  - reflexivity.
  - reflexivity.
  - vm_compute. reflexivity.
  - vm_compute. reflexivity.
  - vm_compute. reflexivity.
  - split; vm_compute; reflexivity.
Defined.

Lemma put_folder_not_a_directory_witness :
  put_folder "bucket" "up" (pathlib.of_str "root/a.txt") at_tree
  = (Return tt, at_tree).
Proof.
  apply (put_folder_not_a_directory "bucket" "up" (pathlib.of_str "root/a.txt")
           at_tree); [reflexivity|].
  vm_compute. discriminate.
Defined.

Lemma put_then_download_witness :
  ∃ w1 w2,
    put_object "bucket" "up/a.txt" (pathlib.of_str "root/a.txt") at_tree_memory
      = (Return tt, w1)
    ∧ download_object "bucket" "up/a.txt" (pathlib.of_str "back/a.txt") w1
      = (Return tt, w2)
    ∧ os.read_rb (disk w2) ["home"; "user"] "back/a.txt" = inr [Byte.x61].
Proof.
  eexists. eexists.
  split; [vm_compute; reflexivity|]. split; [vm_compute; reflexivity|].
  eapply (put_then_download "bucket" "up/a.txt" (pathlib.of_str "root/a.txt")
            (pathlib.of_str "back/a.txt") at_tree_memory).
  - intros b body. unfold object_body. cbn.
    rewrite lookup_insert_eq. cbn. by rewrite app_nil_r.
  - reflexivity.
  - vm_compute. reflexivity.
  - vm_compute. reflexivity.
Defined.

(** The object [data/a.txt], downloaded as a folder to [out/copy.txt]. *)
Lemma download_folder_prefix_itself_witness :
  ∃ w',
    download_folder "bucket" "data/a.txt" (pathlib.of_str "out/copy.txt")
      (fresh (serving ["data/a.txt"])) = (Return tt, w')
    ∧ os.read_rb (disk w') ["home"; "user"] "out/copy.txt"
      = inr [Byte.x68; Byte.x69; Byte.x21].
Proof.
  destruct (download_folder_prefix_itself "bucket" "data/a.txt"
              (pathlib.of_str "out/copy.txt") [keys_page ["data/a.txt"]]
              "data/a.txt" (fresh (serving ["data/a.txt"])))
    as [_ ->]; [reflexivity..|].
  eexists. split; vm_compute; reflexivity.
Defined.

Lemma client_closed_last_witness :
  last (calls (download_object "bucket" "k" (pathlib.of_str "k")
                 (fresh breaks_in_body)).2) = Some Close.
Proof.
  by destruct (client_closed_last "bucket" "bucket" "k" "k" true
                 (pathlib.of_str "k") (fresh breaks_in_body) eq_refl eq_refl)
    as (_ & _ & _ & ? & _).
Defined.

Lemma put_folder_stops_witness :
  (put_folder "bucket" "up" (pathlib.of_str "root") at_tree_refused).1
    = Raise (ClientError "AccessDenied")
  ∧ calls (put_folder "bucket" "up" (pathlib.of_str "root") at_tree_refused).2
    = [PutObject "bucket" "up/a.txt" [Byte.x61]; Close].
Proof.
  edestruct (put_folder_stops "bucket" "up" (pathlib.of_str "root")
               [] (mkPath "" ["root"; "a.txt"])
               [mkPath "" ["root"; "run"]; mkPath "" ["root"; "sub"];
                mkPath "" ["root"; "run"; "agent.sock"];
                mkPath "" ["root"; "sub"; "b.txt"]]
               at_tree_refused at_tree_refused)
    as [-> _].
  - reflexivity.
  - vm_compute. reflexivity.
  - reflexivity.
  - vm_compute. reflexivity.
  - split; vm_compute; reflexivity.
Defined.
